(** * pbl2-2022: the dataset reorganiser of [main.go], embedded and verified

    The Go program walks [dataset/], classifies every annotation by keyword
    matching on paths, resolves the image an annotation names, and writes
    either a rewritten annotation or a normalised-box label next to a copy of
    the image; a second walk copies the images no annotation consumed.

    Organisation of this file:
    - [strings], [filepath], [strconv], [fmt]: the Go library functions the
      program calls, on byte strings;
    - the classifier, the resolver, the copy routine and the two walks, as
      state-passing functions over the package-level variables of [main.go];
    - the theorems. *)

From Stdlib Require Import ZArith List String Ascii Bool Lia.
From Stdlib Require Import DecimalString DecimalPos DecimalZ.
From Stdlib Require Import SpecFloat.
Import ListNotations.

Local Open Scope string_scope.
Local Open Scope Z_scope.

(** ** Go's [int]

    [int] is 64 bits wide on the platforms the program is built for; sums,
    differences and increments wrap around. *)

Definition wrap (z : Z) : Z := (z + 2 ^ 63) mod 2 ^ 64 - 2 ^ 63.

Definition int_add (a b : Z) : Z := wrap (a + b).
Definition int_sub (a b : Z) : Z := wrap (a - b).
Definition int_neg (a : Z) : Z := wrap (- a).

(** ** Package [strings] *)

Module strings.

(** [strings.Contains(s, substr)]: [substr] occurs in [s] at some offset. *)
Fixpoint Contains (s substr : string) : bool :=
  String.prefix substr s
  || match s with
     | EmptyString => false
     | String _ s' => Contains s' substr
     end.

(** [strings.ReplaceAll(s, old, new)] for a non-empty [old]: matches are
    taken left to right and do not overlap.  [skip] counts the bytes of a
    match that are still to be dropped. *)
Fixpoint replace_from (skip : nat) (s old new : string) : string :=
  match s with
  | EmptyString => EmptyString
  | String c s' =>
      match skip with
      | S k => replace_from k s' old new
      | O =>
          if String.prefix old s
          then new ++ replace_from (String.length old - 1) s' old new
          else String c (replace_from O s' old new)
      end
  end.

Definition ReplaceAll (s old new : string) : string := replace_from O s old new.

(** [strings.ToLower] on ASCII input: the letters [A]..[Z] move to
    [a]..[z], every other byte stays.  (On input with bytes above 127 Go
    maps whole runes through the Unicode tables; the program text below
    takes the lower-casing function from its environment, and this is the
    instance used for concrete runs.) *)
Definition lower_byte (c : ascii) : ascii :=
  let n := nat_of_ascii c in
  if (Nat.leb 65 n && Nat.leb n 90)%bool then ascii_of_nat (n + 32) else c.

Fixpoint ToLowerASCII (s : string) : string :=
  match s with
  | EmptyString => EmptyString
  | String c s' => String (lower_byte c) (ToLowerASCII s')
  end.

End strings.

(** ** The classes of [main.go] *)

Definition Class := string.
Definition ClassCount := Z.
Definition ClassIndex := Z.

Definition GUN : Class := "gun".
Definition KNIFE : Class := "knife".
Definition WRENCH : Class := "wrench".
Definition FORK : Class := "fork".
Definition SCREWDRIVER : Class := "screwdriver".
Definition UNKNOWN : Class := "unknown".

Definition knifeIndex : ClassIndex := 0.
Definition forkIndex : ClassIndex := 1.
Definition gunIndex : ClassIndex := 2.
Definition wrenchIndex : ClassIndex := 3.
Definition screwdriverIndex : ClassIndex := 4.

(** [getClassFromPath] returns the address of one of the package-level
    counters; [CounterRef] is the type of these addresses. *)
Inductive CounterRef : Type :=
| AddrGunCount
| AddrKnifeCount
| AddrWrenchCount
| AddrForkCount
| AddrScrewdriverCount
| AddrUnknownCount.

(** ** Package [path/filepath], with [/] as the separator *)

Module filepath.

Definition is_sep (c : ascii) : bool := Ascii.eqb c "/"%char.

Definition rev_bytes (s : string) : list ascii := rev (list_ascii_of_string s).

(** [filepath.Ext]: the loop runs from the last byte towards the first and
    stops at a separator; it returns the suffix that starts at the first dot
    it meets.  [acc] holds the bytes already passed. *)
Fixpoint ext_scan (r : list ascii) (acc : string) : string :=
  match r with
  | [] => ""
  | c :: r' =>
      if is_sep c then ""
      else if Ascii.eqb c "."%char then String c acc
      else ext_scan r' (String c acc)
  end.

Definition Ext (path : string) : string := ext_scan (rev_bytes path) "".

Fixpoint strip_seps (r : list ascii) : list ascii :=
  match r with
  | c :: r' => if is_sep c then strip_seps r' else r
  | [] => []
  end.

Fixpoint last_elem (r : list ascii) (acc : string) : string :=
  match r with
  | [] => acc
  | c :: r' => if is_sep c then acc else last_elem r' (String c acc)
  end.

(** [filepath.Base]: the last element of the path, after the trailing
    separators are removed. *)
Definition Base (path : string) : string :=
  if String.eqb path "" then "."
  else
    let path := last_elem (strip_seps (rev_bytes path)) "" in
    if String.eqb path "" then "/" else path.

(** The elements of a path, separated by [/] (empty elements kept). *)
Fixpoint elements (s : string) : list string :=
  match s with
  | EmptyString => [""]
  | String c s' =>
      if is_sep c then "" :: elements s'
      else
        match elements s' with
        | e :: es => String c e :: es
        | [] => [String c ""]
        end
  end.

(** One element of [filepath.Clean]; [out] is the cleaned path so far,
    last element first. *)
Definition clean_step (rooted : bool) (out : list string) (e : string) : list string :=
  if String.eqb e "" || String.eqb e "." then out
  else if String.eqb e ".." then
    match out with
    | top :: rest => if String.eqb top ".." then e :: out else rest
    | [] => if rooted then [] else [e]
    end
  else e :: out.

Definition Clean (path : string) : string :=
  if String.eqb path "" then "."
  else
    let rooted := String.prefix "/" path in
    let out := fold_left (clean_step rooted) (elements path) [] in
    let body := String.concat "/" (rev out) in
    let res := if rooted then "/" ++ body else body in
    if String.eqb res "" then "." else res.

(** [filepath.Join]: leading empty elements are dropped, the rest is joined
    with separators and cleaned. *)
Fixpoint Join (elem : list string) : string :=
  match elem with
  | [] => ""
  | e :: rest => if String.eqb e "" then Join rest else Clean (String.concat "/" elem)
  end.

Fixpoint drop_last_elem (r : list ascii) : list ascii :=
  match r with
  | c :: r' => if is_sep c then r else drop_last_elem r'
  | [] => []
  end.

(** [filepath.Dir]: everything up to the last separator, cleaned. *)
Definition Dir (path : string) : string :=
  Clean (string_of_list_ascii (rev (drop_last_elem (rev_bytes path)))).

End filepath.

(** ** Go [error] values the program can see *)

Inductive error : Type :=
| ErrStat (name : string)
| ErrNotRegular (src : string)         (* "%s is not a regular file" *)
| ErrOpen (name : string)
| ErrCreate (name : string)
| ErrCopy (src dst : string)
| ErrWriteFile (name : string)
| ErrCannotReadXML (path : string)     (* "Cannot read XML: " + path *)
| ErrSyntax (s : string)               (* strconv.ErrSyntax *)
| ErrRange (s : string)                (* strconv.ErrRange *)
| ErrRel (basepath targpath : string)
| ErrMarshal.

(** ** Package [strconv] *)

Module strconv.

(** [strconv.Itoa]. *)
Definition Itoa (i : Z) : string := NilZero.string_of_int (Z.to_int i).

Definition digit (c : ascii) : option Z :=
  let n := Z.of_nat (nat_of_ascii c) in
  if (48 <=? n) && (n <=? 57) then Some (n - 48) else None.

Definition maxUint64 : Z := 2 ^ 64 - 1.

(** The digit loop of [ParseUint(s, 10, 64)]: a byte that is no digit is a
    syntax error; an overflow returns at once with the largest value and a
    range error, the rest of the input unread. *)
Fixpoint parse_digits (s0 s : string) (n : Z) : Z * option error :=
  match s with
  | EmptyString => (n, None)
  | String c s' =>
      match digit c with
      | None => (0, Some (ErrSyntax s0))
      | Some d =>
          if n >=? maxUint64 / 10 + 1 then (maxUint64, Some (ErrRange s0))
          else
            let n1 := n * 10 + d in
            if n1 >? maxUint64 then (maxUint64, Some (ErrRange s0))
            else parse_digits s0 s' n1
      end
  end.

Definition ParseUint (s : string) : Z * option error :=
  if String.eqb s "" then (0, Some (ErrSyntax s)) else parse_digits s s 0.

(** [ParseInt(s, 10, 0)] with a 64-bit [int]. *)
Definition ParseInt (s : string) : Z * option error :=
  match s with
  | EmptyString => (0, Some (ErrSyntax s))
  | String c rest =>
      let neg := Ascii.eqb c "-"%char in
      let body := if Ascii.eqb c "+"%char || neg then rest else s in
      let (un, err) := ParseUint body in
      match err with
      | Some (ErrRange _) | None =>
          let cutoff := 2 ^ 63 in
          if negb neg && (un >=? cutoff) then (cutoff - 1, Some (ErrRange s))
          else if neg && (un >? cutoff) then (- cutoff, Some (ErrRange s))
          else (if neg then - un else un, None)
      | Some _ => (0, Some (ErrSyntax s))
      end
  end.

(** The loop of the fast path of [Atoi]. *)
Fixpoint atoi_digits (s0 s : string) (n : Z) : Z * option error :=
  match s with
  | EmptyString => (n, None)
  | String c s' =>
      match digit c with
      | None => (0, Some (ErrSyntax s0))
      | Some d => atoi_digits s0 s' (n * 10 + d)
      end
  end.

(** [strconv.Atoi]: inputs of 1 to 18 bytes take the fast path, every
    other input goes through [ParseInt]. *)
Definition Atoi (s : string) : Z * option error :=
  let sLen := Z.of_nat (String.length s) in
  if (0 <? sLen) && (sLen <? 19) then
    match s with
    | EmptyString => (0, Some (ErrSyntax s))
    | String c rest =>
        let signed := Ascii.eqb c "-"%char || Ascii.eqb c "+"%char in
        let body := if signed then rest else s in
        if signed && (String.length body <? 1)%nat then (0, Some (ErrSyntax s))
        else
          let (n, err) := atoi_digits s body 0 in
          match err with
          | Some e => (0, Some e)
          | None => (if Ascii.eqb c "-"%char then - n else n, None)
          end
    end
  else ParseInt s.

End strconv.

(** ** [float64] and the verb [%f]

    [float64] is IEEE 754 binary64: 53 bits of precision, round to nearest
    even.  The operations are those of the specification of binary floats in
    the Standard Library, at that format. *)

Module float64.

Definition prec : Z := 53.
Definition emax : Z := 1024.

Definition t := spec_float.

(** The conversion [float64(i)] of an [int]. *)
Definition of_int (i : Z) : t := binary_normalize prec emax i 0 false.

Definition mul : t -> t -> t := SFmul prec emax.
Definition div : t -> t -> t := SFdiv prec emax.
Definition sub : t -> t -> t := SFsub prec emax.

End float64.

Module fmt.

(** [digits] decimal digits of [n], zero-padded on the left. *)
Fixpoint pad_digits (digits : nat) (n : Z) (acc : string) : string :=
  match digits with
  | O => acc
  | S k =>
      pad_digits k (n / 10)
        (String (ascii_of_nat (Z.to_nat (48 + n mod 10))) acc)
  end.

(** [|m * 2^e| * 10^6] rounded to the nearest integer, ties to even: the
    decimal conversion of [strconv] is exact and rounds its last digit that
    way. *)
Definition micro_units (m : positive) (e : Z) : Z :=
  let num := Z.pos m * 10 ^ 6 in
  if 0 <=? e then num * 2 ^ e
  else
    let den := 2 ^ (- e) in
    let q := num / den in
    let r := num mod den in
    match 2 * r ?= den with
    | Lt => q
    | Gt => q + 1
    | Eq => if Z.even q then q else q + 1
    end.

Definition fixed6 (neg : bool) (units : Z) : string :=
  (if neg then "-" else "")
  ++ strconv.Itoa (units / 10 ^ 6) ++ "." ++ pad_digits 6 (units mod 10 ^ 6) "".

(** [fmt.Sprintf("%f", v)]: six digits after the point. *)
Definition Sprintf_f (v : float64.t) : string :=
  match v with
  | S754_nan => "NaN"
  | S754_infinity false => "+Inf"
  | S754_infinity true => "-Inf"
  | S754_zero neg => fixed6 neg 0
  | S754_finite neg m e => fixed6 neg (micro_units m e)
  end.

End fmt.

(** ** The annotation record *)

Record xml_Name : Type := { Space : string; Local : string }.

Record SourceT : Type := { Source_Text : string; Database : string }.

Record SizeT : Type :=
  { Size_Text : string; Width : string; Height : string; Depth : string }.

Record BndboxT : Type :=
  { Bndbox_Text : string; Xmin : string; Ymin : string; Xmax : string; Ymax : string }.

Record ObjectT : Type :=
  { Object_Text : string;
    Name : string;
    Pose : string;
    Truncated : string;
    Difficult : string;
    Bndbox : BndboxT }.

Record labelledXML : Type :=
  { XMLName : xml_Name;
    Text : string;
    Folder : string;
    Filename : string;
    Path : string;
    Source : SourceT;
    Size : SizeT;
    Segmented : string;
    Object : ObjectT }.

(** The zero value [labelledXML{}]: every field empty. *)
Definition labelledXML_zero : labelledXML :=
  {| XMLName := {| Space := ""; Local := "" |};
     Text := ""; Folder := ""; Filename := ""; Path := "";
     Source := {| Source_Text := ""; Database := "" |};
     Size := {| Size_Text := ""; Width := ""; Height := ""; Depth := "" |};
     Segmented := "";
     Object :=
       {| Object_Text := ""; Name := ""; Pose := ""; Truncated := ""; Difficult := "";
          Bndbox := {| Bndbox_Text := ""; Xmin := ""; Ymin := ""; Xmax := ""; Ymax := "" |} |} |}.

(** The three assignments of the rewrite branch:
    [data.Path = p; data.Filename = f; data.Object.Name = class]. *)
Definition rewrite_fields (data : labelledXML) (p f class : string) : labelledXML :=
  {| XMLName := XMLName data;
     Text := Text data; Folder := Folder data; Filename := f; Path := p;
     Source := Source data; Size := Size data; Segmented := Segmented data;
     Object :=
       {| Object_Text := Object_Text (Object data);
          Name := class;
          Pose := Pose (Object data);
          Truncated := Truncated (Object data);
          Difficult := Difficult (Object data);
          Bndbox := Bndbox (Object data) |} |}.

(** ** The environment of a run

    Everything the program obtains from outside [main.go]: the lower-casing of
    [strings.ToLower], the directory walks, the outcome of each file
    operation, the XML codec and [filepath.Rel].  The program never writes
    under [dataset/], so the answers do not change during a run. *)

(** What [filepath.WalkDir] hands to its callback for one entry: the path and
    the [fs.DirEntry] with its [Name()] and [IsDir()]. *)
Record DirEntry : Type := { d_path : string; d_Name : string; d_IsDir : bool }.

Record Env : Type :=
  { (** [strings.ToLower] *)
    ToLower : string -> string;
    (** the entries [filepath.WalkDir(root, fn)] visits, in order; the tree is
        readable, so [fn] is called once per entry with a nil error *)
    walk : string -> list DirEntry;
    (** [os.Stat(name)]: [None] for an error, otherwise [Mode().IsRegular()] *)
    Stat : string -> option bool;
    (** [os.Open(name)] succeeds *)
    Open_ok : string -> bool;
    (** [os.Create(name)] succeeds *)
    Create_ok : string -> bool;
    (** [io.Copy(destination, source)] returns a nil error *)
    Copy_ok : string -> string -> bool;
    (** [ioutil.WriteFile(name, _, 0644)] succeeds *)
    WriteFile_ok : string -> bool;
    (** [xml.NewDecoder(file).Decode(&labelled)]: the record the decoder
        leaves behind when it starts from [labelled], whatever error it
        returns *)
    Decode : string -> labelledXML -> labelledXML;
    (** [xml.MarshalIndent(data, "", "  ")] *)
    MarshalIndent : labelledXML -> string * option error;
    (** [filepath.Rel(basepath, targpath)] *)
    Rel : string -> string -> string * option error }.

(** ** The package-level variables and the files written so far *)

(** A file the run has produced. *)
Inductive Output : Type :=
| Written (name data : string)
    (* ioutil.WriteFile(name, data, 0644) returned nil *)
| Copied (src dst : string) (complete : bool).
    (* copy: os.Create(dst) succeeded and io.Copy ran; complete = it returned nil *)

Record State : Type :=
  { GunCount : ClassCount;
    KnifeCount : ClassCount;
    WrenchCount : ClassCount;
    ForkCount : ClassCount;
    ScrewdriverCount : ClassCount;
    UnknownCount : ClassCount;
    TotalCount : ClassCount;
    copiedImages : list string;
    (** the directories [os.MkdirAll] was called on, oldest first *)
    dirs : list string;
    (** the files produced, oldest first *)
    files : list Output }.

(** The values the variables are declared with. *)
Definition initial : State :=
  {| GunCount := 0; KnifeCount := 0; WrenchCount := 0; ForkCount := 0;
     ScrewdriverCount := 0; UnknownCount := 0; TotalCount := 0;
     copiedImages := []; dirs := []; files := [] |}.

(** [*p] *)
Definition load (p : CounterRef) (st : State) : ClassCount :=
  match p with
  | AddrGunCount => GunCount st
  | AddrKnifeCount => KnifeCount st
  | AddrWrenchCount => WrenchCount st
  | AddrForkCount => ForkCount st
  | AddrScrewdriverCount => ScrewdriverCount st
  | AddrUnknownCount => UnknownCount st
  end.

(** [*p = v] *)
Definition store (p : CounterRef) (v : ClassCount) (st : State) : State :=
  {| GunCount := match p with AddrGunCount => v | _ => GunCount st end;
     KnifeCount := match p with AddrKnifeCount => v | _ => KnifeCount st end;
     WrenchCount := match p with AddrWrenchCount => v | _ => WrenchCount st end;
     ForkCount := match p with AddrForkCount => v | _ => ForkCount st end;
     ScrewdriverCount := match p with AddrScrewdriverCount => v | _ => ScrewdriverCount st end;
     UnknownCount := match p with AddrUnknownCount => v | _ => UnknownCount st end;
     TotalCount := TotalCount st;
     copiedImages := copiedImages st; dirs := dirs st; files := files st |}.

Definition set_TotalCount (v : ClassCount) (st : State) : State :=
  {| GunCount := GunCount st; KnifeCount := KnifeCount st; WrenchCount := WrenchCount st;
     ForkCount := ForkCount st; ScrewdriverCount := ScrewdriverCount st;
     UnknownCount := UnknownCount st; TotalCount := v;
     copiedImages := copiedImages st; dirs := dirs st; files := files st |}.

Definition set_copiedImages (l : list string) (st : State) : State :=
  {| GunCount := GunCount st; KnifeCount := KnifeCount st; WrenchCount := WrenchCount st;
     ForkCount := ForkCount st; ScrewdriverCount := ScrewdriverCount st;
     UnknownCount := UnknownCount st; TotalCount := TotalCount st;
     copiedImages := l; dirs := dirs st; files := files st |}.

Definition set_dirs (l : list string) (st : State) : State :=
  {| GunCount := GunCount st; KnifeCount := KnifeCount st; WrenchCount := WrenchCount st;
     ForkCount := ForkCount st; ScrewdriverCount := ScrewdriverCount st;
     UnknownCount := UnknownCount st; TotalCount := TotalCount st;
     copiedImages := copiedImages st; dirs := l; files := files st |}.

Definition set_files (l : list Output) (st : State) : State :=
  {| GunCount := GunCount st; KnifeCount := KnifeCount st; WrenchCount := WrenchCount st;
     ForkCount := ForkCount st; ScrewdriverCount := ScrewdriverCount st;
     UnknownCount := UnknownCount st; TotalCount := TotalCount st;
     copiedImages := copiedImages st; dirs := dirs st; files := l |}.

(** ** Statements that change the state and may return an error *)

(** The outcome of a call: its value, or the error it returned, and the state
    it leaves in either case. *)
Inductive Res (A : Type) : Type :=
| Ok (a : A) (st : State)
| Fail (e : error) (st : State).

Arguments Ok {A} a st.
Arguments Fail {A} e st.

Definition M (A : Type) : Type := State -> Res A.

Definition ret {A : Type} (a : A) : M A := fun st => Ok a st.

Definition bind {A B : Type} (m : M A) (k : A -> M B) : M B :=
  fun st =>
    match m st with
    | Ok a st' => k a st'
    | Fail e st' => Fail e st'
    end.

Notation "x <- m ;; k" := (bind m (fun x => k))
  (at level 61, m at next level, right associativity).
Notation "m ;;; k" := (bind m (fun _ => k))
  (at level 61, right associativity).

(** [v, err := f(...); if err != nil { return err }] *)
Definition checked {A : Type} (r : A * option error) : M A :=
  fun st =>
    match snd r with
    | Some e => Fail e st
    | None => Ok (fst r) st
    end.

(** A call whose results are dropped: [f(...)] as a statement. *)
Definition ignore {A : Type} (m : M A) : M unit :=
  fun st =>
    match m st with
    | Ok _ st' => Ok tt st'
    | Fail _ st' => Ok tt st'
    end.

Definition get {A : Type} (f : State -> A) : M A := fun st => Ok (f st) st.
Definition modify (f : State -> State) : M unit := fun st => Ok tt (f st).

Definition state_of {A : Type} (r : Res A) : State :=
  match r with
  | Ok _ st => st
  | Fail _ st => st
  end.

Definition error_of {A : Type} (r : Res A) : option error :=
  match r with
  | Ok _ _ => None
  | Fail e _ => Some e
  end.

(** [slices.Contains] on strings. *)
Definition slices_Contains (s : list string) (v : string) : bool :=
  existsb (String.eqb v) s.

(** [filepath.WalkDir(root, fn)] over the entries of the tree: the walk stops
    at the first error [fn] returns and returns it. *)
Fixpoint walk_entries (fn : string -> DirEntry -> M unit) (es : list DirEntry) : M unit :=
  fun st =>
    match es with
    | [] => Ok tt st
    | d :: es' =>
        match fn (d_path d) d st with
        | Ok _ st' => walk_entries fn es' st'
        | Fail e st' => Fail e st'
        end
    end.

(** ** The program *)

Section Program.

Variable env : Env.

Definition getIndexFromPath (path : string) : ClassIndex :=
  let path := ToLower env path in
  if strings.Contains path GUN then gunIndex
  else if strings.Contains path KNIFE then knifeIndex
  else if strings.Contains path WRENCH then wrenchIndex
  else if strings.Contains path FORK then forkIndex
  else if strings.Contains path SCREWDRIVER then screwdriverIndex
  else -1.

Definition getClassFromPath (path : string) : Class * CounterRef :=
  let path := ToLower env path in
  if strings.Contains path GUN then (GUN, AddrGunCount)
  else if strings.Contains path KNIFE then (KNIFE, AddrKnifeCount)
  else if strings.Contains path WRENCH then (WRENCH, AddrWrenchCount)
  else if strings.Contains path FORK then (FORK, AddrForkCount)
  else if strings.Contains path SCREWDRIVER then (SCREWDRIVER, AddrScrewdriverCount)
  else (UNKNOWN, AddrUnknownCount).

(** [copy(src, dst)].  The byte count is not modelled: no caller reads it. *)
Definition copy (src dst : string) : M unit :=
  fun st =>
    match Stat env src with
    | None => Fail (ErrStat src) st
    | Some regular =>
        if negb regular then Fail (ErrNotRegular src) st
        else if negb (Open_ok env src) then Fail (ErrOpen src) st
        else if negb (Create_ok env dst) then Fail (ErrCreate dst) st
        else
          let complete := Copy_ok env dst src in
          let st := set_files (files st ++ [Copied src dst complete]) st in
          let st := set_copiedImages (copiedImages st ++ [src]) st in
          if complete then Ok tt st else Fail (ErrCopy src dst) st
    end.

Definition createOutputDir (dir : string) : M string :=
  fun st =>
    let outputDir := filepath.Join ["output"; dir] in
    Ok outputDir (set_dirs (dirs st ++ [outputDir]) st).

Definition getOutputFileName (class : Class) (classCount : ClassCount) (path : string)
  : M string :=
  dir <- createOutputDir class ;;
  ret (filepath.Join
         [dir; String.concat "_" [class; strconv.Itoa classCount] ++ filepath.Ext path]).

(** [ioutil.WriteFile(name, data, 0644)] *)
Definition WriteFile (name data : string) : M unit :=
  fun st =>
    if WriteFile_ok env name
    then Ok tt (set_files (files st ++ [Written name data]) st)
    else Fail (ErrWriteFile name) st.

Definition readLabelled (filename : string) : option labelledXML * option error :=
  if negb (Open_ok env filename) then (None, Some (ErrOpen filename))
  else
    let labelled := labelledXML_zero in
    let labelled := Decode env filename labelled in
    (Some labelled, None).

(** The closure [walker] of [findCorrespondingFile]; [found] is the variable
    it assigns. *)
Definition walker (baseName : string) (found : string) (d : DirEntry) : string :=
  if negb (d_IsDir d) && String.eqb (d_Name d) baseName then d_path d else found.

Definition findCorrespondingFile (p : string) : string :=
  let baseName := filepath.Base (strings.ReplaceAll p "\" "/") in
  let found := "" in
  let found := fold_left (walker baseName) (walk env "dataset/images") found in
  let found :=
    if (String.length found =? 0)%nat
    then fold_left (walker baseName) (walk env "dataset/allimages") found
    else found in
  found.

(** Lines 268-280 of [scanAllLabelled]: the text of the label file. *)
Definition yoloLine (classIndex xMin yMin xMax yMax width height : Z) : string :=
  let one := float64.of_int 1 in
  let two := float64.of_int 2 in
  let dw := float64.div one (float64.of_int width) in
  let dh := float64.div one (float64.of_int height) in
  let x := float64.sub (float64.div (float64.of_int (int_add xMin xMax)) two) one in
  let y := float64.sub (float64.div (float64.of_int (int_add yMin yMax)) two) one in
  let w := float64.of_int (int_sub xMax xMin) in
  let h := float64.of_int (int_sub yMax yMin) in
  let xStr := fmt.Sprintf_f (float64.mul x dw) in
  let wStr := fmt.Sprintf_f (float64.mul w dw) in
  let yStr := fmt.Sprintf_f (float64.mul y dh) in
  let hStr := fmt.Sprintf_f (float64.mul h dh) in
  strconv.Itoa classIndex ++ " " ++ xStr ++ " " ++ yStr ++ " " ++ wStr ++ " " ++ hStr.

(** The [!yolo] branch of [scanAllLabelled]. *)
Definition rewriteAnnotation (path : string) (data : labelledXML) (class : Class)
  (classCount : CounterRef) (foundImage : string) : M unit :=
  n <- get (load classCount) ;;
  outputFile <- getOutputFileName class n (filepath.Ext foundImage) ;;
  n <- get (load classCount) ;;
  xmlOutFile <- getOutputFileName class n (filepath.Ext path) ;;
  relativeImagePath <-
    checked (Rel env (filepath.Dir xmlOutFile) (filepath.Dir outputFile)) ;;
  let relativeImagePath := filepath.Join [relativeImagePath; filepath.Base outputFile] in
  let data := rewrite_fields data relativeImagePath (filepath.Base outputFile) class in
  let (b, err) := MarshalIndent env data in
  let b := strings.ReplaceAll b "&#xA;" "" in
  let b := strings.ReplaceAll b "&#x9;" "" in
  checked (tt, err) ;;;
  WriteFile xmlOutFile b ;;;
  ignore (copy foundImage outputFile) ;;;
  modify (fun st => store classCount (int_add (load classCount st) 1) st).

(** The [yolo] branch of [scanAllLabelled]. *)
Definition writeYolo (data : labelledXML) (classIndex : ClassIndex) (foundImage : string)
  : M unit :=
  dir <- createOutputDir "yolo" ;;
  n <- get TotalCount ;;
  let outputFile := filepath.Join [dir; strconv.Itoa n ++ ".jpg"] in
  dir <- createOutputDir "yolo" ;;
  n <- get TotalCount ;;
  let outputYoloFile := filepath.Join [dir; strconv.Itoa n ++ ".txt"] in
  let (xMax, err) := strconv.Atoi (Xmax (Bndbox (Object data))) in
  let (xMin, err) := strconv.Atoi (Xmin (Bndbox (Object data))) in
  let (yMax, err) := strconv.Atoi (Ymax (Bndbox (Object data))) in
  let (yMin, err) := strconv.Atoi (Ymin (Bndbox (Object data))) in
  let (width, err) := strconv.Atoi (Width (Size data)) in
  let (height, err) := strconv.Atoi (Height (Size data)) in
  checked (tt, err) ;;;
  WriteFile outputYoloFile (yoloLine classIndex xMin yMin xMax yMax width height) ;;;
  ignore (copy foundImage outputFile) ;;;
  modify (fun st => set_TotalCount (int_add (TotalCount st) 1) st).

(** The callback of the walk in [scanAllLabelled]. *)
Definition scanAllLabelled_fn (yolo : bool) (path : string) (d : DirEntry) : M unit :=
  if String.eqb (filepath.Ext (d_Name d)) ".xml" then
    let (data, err) := readLabelled path in
    checked (tt, err) ;;;
    match data with
    | None => fun st => Fail (ErrCannotReadXML path) st
    | Some data =>
        let (class, classCount) := getClassFromPath path in
        let (class, classCount) :=
          if String.eqb class UNKNOWN then getClassFromPath (Path data)
          else (class, classCount) in
        let classIndex := getIndexFromPath path in
        let classIndex :=
          if classIndex =? -1 then getIndexFromPath (Path data) else classIndex in
        let foundImage := findCorrespondingFile (Path data) in
        if negb (String.length foundImage =? 0)%nat then
          if negb yolo
          then rewriteAnnotation path data class classCount foundImage
          else writeYolo data classIndex foundImage
        else ret tt
    end
  else ret tt.

(** [scanAllLabelled(yolo)]; a [Fail] is the error handed to [log.Fatal]. *)
Definition scanAllLabelled (yolo : bool) : M unit :=
  walk_entries (scanAllLabelled_fn yolo) (walk env "dataset").

(** The callback of the walk in [scanImages]. *)
Definition scanImages_fn (path : string) (d : DirEntry) : M unit :=
  fun st =>
    if negb (slices_Contains (copiedImages st) path) then
      let (class, classCount) := getClassFromPath path in
      (outputFile <- getOutputFileName class (load classCount st) (filepath.Ext path) ;;
       ignore (copy path outputFile) ;;;
       modify (fun st => store classCount (int_add (load classCount st) 1) st)) st
    else Ok tt st.

Definition scanImages : M unit :=
  walk_entries scanImages_fn (walk env "dataset/images").

(** [main]: [log.Fatal] ends the process, so the sweep runs only after an
    annotation pass without error. *)
Definition main : M unit :=
  scanAllLabelled true ;;; scanImages.

End Program.

(** ** The words of the specification, for comparison with the program *)

(** The class keywords, highest priority first. *)
Definition priority : list Class := [GUN; KNIFE; WRENCH; FORK; SCREWDRIVER].

(** The index table: knife 0, fork 1, gun 2, wrench 3, screwdriver 4, and -1
    for anything else. *)
Definition spec_index (c : Class) : ClassIndex :=
  if String.eqb c KNIFE then 0
  else if String.eqb c FORK then 1
  else if String.eqb c GUN then 2
  else if String.eqb c WRENCH then 3
  else if String.eqb c SCREWDRIVER then 4
  else -1.

(** The lower-cased path contains the keyword [k]. *)
Definition has_keyword (env : Env) (path : string) (k : Class) : bool :=
  strings.Contains (ToLower env path) k.

(** The test of [walker]: a non-directory whose name is [baseName]. *)
Definition is_match (baseName : string) (d : DirEntry) : bool :=
  negb (d_IsDir d) && String.eqb (d_Name d) baseName.

(** The base name the resolver looks for. *)
Definition wanted (p : string) : string :=
  filepath.Base (strings.ReplaceAll p "\" "/").

(** [o] is a copy of the source [p]. *)
Definition is_copy_of (p : string) (o : Output) : bool :=
  match o with
  | Copied src _ _ => String.eqb src p
  | Written _ _ => false
  end.

(** Some annotation file of the walk of [dataset] resolves to [p]. *)
Definition referenced (env : Env) (p : string) : bool :=
  existsb
    (fun d =>
       String.eqb (filepath.Ext (d_Name d)) ".xml"
       && String.eqb
            (findCorrespondingFile env (Path (Decode env (d_path d) labelledXML_zero))) p)
    (walk env "dataset").

(** [copy] can read [p] and write any destination. *)
Definition copyable (env : Env) (p : string) : Prop :=
  Stat env p = Some true
  /\ Open_ok env p = true
  /\ (forall dst, Create_ok env dst = true)
  /\ (forall dst, Copy_ok env dst p = true).

(** What holds of the state all along the annotation pass: every recorded
    source is the image some annotation resolves to, and every copy is
    recorded. *)
Definition recorded (env : Env) (st : State) : Prop :=
  (forall s, In s (copiedImages st) -> referenced env s = true)
  /\ (forall s dst c, In (Copied s dst c) (files st) -> In s (copiedImages st)).

(** [m] keeps the invariant [I], whether it returns an error or not. *)
Definition keeps {A : Type} (I : State -> Prop) (m : M A) : Prop :=
  forall st, I st -> I (state_of (m st)).

(** ** Sample datasets *)

(** An environment on ASCII paths with nothing on disk, for concrete runs of
    the two keyword functions. *)
Definition ascii_env : Env :=
  {| ToLower := strings.ToLowerASCII;
     walk := fun _ => [];
     Stat := fun _ => None;
     Open_ok := fun _ => false;
     Create_ok := fun _ => false;
     Copy_ok := fun _ _ => false;
     WriteFile_ok := fun _ => false;
     Decode := fun _ labelled => labelled;
     MarshalIndent := fun _ => ("", Some ErrMarshal);
     Rel := fun b t => ("", Some (ErrRel b t)) |}.

Definition a_file (p n : string) : DirEntry := {| d_path := p; d_Name := n; d_IsDir := false |}.
Definition a_dir (p n : string) : DirEntry := {| d_path := p; d_Name := n; d_IsDir := true |}.

(** A one-line rendering of the fields the rewrite branch assigns, standing
    for the XML encoder in the sample runs. *)
Definition render (data : labelledXML) : string :=
  "<annotation><filename>" ++ Filename data ++ "</filename><path>" ++ Path data
  ++ "</path><object><name>" ++ Name (Object data) ++ "</name></object></annotation>".

(** A disk on which every operation succeeds: [dataset], [images] and
    [allimages] are the three walks, [regular] tells the regular files from
    the rest, and every annotation file decodes to [ann] with [fill] set, or
    is left undecoded without it.  [Rel] answers for equal directories, the
    only case the sample runs reach. *)
Definition disk_env (dataset images allimages : list DirEntry) (regular : string -> bool)
  (fill : bool) (ann : labelledXML) : Env :=
  {| ToLower := strings.ToLowerASCII;
     walk := fun root =>
       if String.eqb root "dataset" then dataset
       else if String.eqb root "dataset/images" then images
       else if String.eqb root "dataset/allimages" then allimages
       else [];
     Stat := fun name => Some (regular name);
     Open_ok := fun _ => true;
     Create_ok := fun _ => true;
     Copy_ok := fun _ _ => true;
     WriteFile_ok := fun _ => true;
     Decode := fun _ labelled => if fill then ann else labelled;
     MarshalIndent := fun data => (render data, None);
     Rel := fun basepath targpath =>
       if String.eqb basepath targpath then (".", None)
       else ("", Some (ErrRel basepath targpath)) |}.

(** An annotation of a 100 by 50 image with the box (10, 10, 50, 30), as
    written by a labelling tool on another machine. *)
Definition box_annotation (xmax : string) : labelledXML :=
  {| XMLName := {| Space := ""; Local := "annotation" |};
     Text := ""; Folder := "knife"; Filename := "knife_1.jpg";
     Path := "C:\labels\knife\knife_1.jpg";
     Source := {| Source_Text := ""; Database := "Unknown" |};
     Size := {| Size_Text := ""; Width := "100"; Height := "50"; Depth := "3" |};
     Segmented := "0";
     Object :=
       {| Object_Text := ""; Name := "blade"; Pose := "Unspecified";
          Truncated := "0"; Difficult := "0";
          Bndbox := {| Bndbox_Text := ""; Xmin := "10"; Ymin := "10";
                       Xmax := xmax; Ymax := "30" |} |} |}.

Definition knife_dataset : list DirEntry :=
  [ a_dir "dataset" "dataset";
    a_dir "dataset/images" "images";
    a_file "dataset/images/knife_1.jpg" "knife_1.jpg";
    a_dir "dataset/labels" "labels";
    a_file "dataset/labels/knife_1.xml" "knife_1.xml" ].

Definition knife_images : list DirEntry :=
  [ a_dir "dataset/images" "images";
    a_file "dataset/images/knife_1.jpg" "knife_1.jpg" ].

Definition is_dataset_dir (name : string) : bool :=
  String.eqb name "dataset" || String.eqb name "dataset/images"
  || String.eqb name "dataset/labels".

(** One annotated knife image, everything readable. *)
Definition knife_env : Env :=
  disk_env knife_dataset knife_images [] (fun name => negb (is_dataset_dir name))
    true (box_annotation "50").

(** Two images of the same name in two directories of the primary root. *)
Definition twin_images : list DirEntry :=
  [ a_dir "dataset/images" "images";
    a_dir "dataset/images/a" "a";
    a_file "dataset/images/a/x.jpg" "x.jpg";
    a_dir "dataset/images/b" "b";
    a_file "dataset/images/b/x.jpg" "x.jpg" ].

Definition twin_env : Env :=
  disk_env [] twin_images [ a_file "dataset/allimages/x.jpg" "x.jpg" ]
    (fun _ => true) true (box_annotation "50").

(** The sample dataset with an annotation file the decoder cannot read: the
    record stays as [labelledXML{}]. *)
Definition undecoded_env : Env :=
  disk_env knife_dataset knife_images [] (fun name => negb (is_dataset_dir name))
    false (box_annotation "50").

(** A primary root with one class directory and one image in it. *)
Definition sweep_images : list DirEntry :=
  [ a_dir "dataset/images" "images";
    a_dir "dataset/images/knife" "knife";
    a_file "dataset/images/knife/a.jpg" "a.jpg" ].

Definition sweep_env : Env :=
  disk_env [ a_dir "dataset" "dataset" ] sweep_images []
    (fun name => String.eqb name "dataset/images/knife/a.jpg")
    true (box_annotation "50").

(** The sample dataset with [knife_1.jpg] not a regular file (a link to a
    directory, a pipe): the walk lists it, [copy] refuses it. *)
Definition broken_image_env : Env :=
  disk_env knife_dataset knife_images [] (fun _ => false) true (box_annotation "50").

(** The sample dataset with [xmax] written as a decimal fraction. *)
Definition bad_xmax_env : Env :=
  disk_env knife_dataset knife_images [] (fun name => negb (is_dataset_dir name))
    true (box_annotation "50.0").

(** The sample dataset with a second image that no annotation names. *)
Definition spare_images : list DirEntry :=
  [ a_dir "dataset/images" "images";
    a_file "dataset/images/knife_1.jpg" "knife_1.jpg";
    a_file "dataset/images/fork_7.jpg" "fork_7.jpg" ].

Definition spare_dataset : list DirEntry :=
  [ a_dir "dataset" "dataset";
    a_dir "dataset/images" "images";
    a_file "dataset/images/knife_1.jpg" "knife_1.jpg";
    a_file "dataset/images/fork_7.jpg" "fork_7.jpg";
    a_dir "dataset/labels" "labels";
    a_file "dataset/labels/knife_1.xml" "knife_1.xml" ].

Definition spare_env : Env :=
  disk_env spare_dataset spare_images [] (fun name => negb (is_dataset_dir name))
    true (box_annotation "50").

(** The sample dataset on a disk where no file can be written. *)
Definition unwritable_env : Env :=
  {| ToLower := ToLower knife_env; walk := walk knife_env; Stat := Stat knife_env;
     Open_ok := Open_ok knife_env; Create_ok := Create_ok knife_env;
     Copy_ok := Copy_ok knife_env; WriteFile_ok := fun _ => false;
     Decode := Decode knife_env; MarshalIndent := MarshalIndent knife_env;
     Rel := Rel knife_env |}.

(** ** Names, bytes and lists of outputs *)

(** Every byte of [s] satisfies [P]. *)
Fixpoint all_bytes (P : ascii -> bool) (s : string) : bool :=
  match s with
  | EmptyString => true
  | String c s' => P c && all_bytes P s'
  end.

(** [s] holds no path separator. *)
Fixpoint no_sep (s : string) : bool :=
  match s with
  | EmptyString => true
  | String c s' => negb (filepath.is_sep c) && no_sep s'
  end.

(** A path element that [filepath.Clean] keeps as it is: not empty, not [.],
    not [..], without a separator. *)
Definition plain (e : string) : bool :=
  negb (String.eqb e "") && negb (String.eqb e ".") && negb (String.eqb e "..") && no_sep e.

(** A byte [strconv.Itoa] writes: a decimal digit or the minus sign. *)
Definition decimal_byte (c : ascii) : bool :=
  match strconv.digit c with
  | Some _ => true
  | None => Ascii.eqb c "-"%char
  end.

Definition not_dot (c : ascii) : bool := negb (Ascii.eqb c "."%char).

Definition not_sep (c : ascii) : bool := negb (filepath.is_sep c).

Definition not_backslash (c : ascii) : bool := negb (Ascii.eqb c "\"%char).

(** An extension as [filepath.Ext] returns it: empty, or a dot followed by
    bytes that are neither dots nor separators. *)
Definition is_ext (e : string) : bool :=
  match e with
  | EmptyString => true
  | String c t => Ascii.eqb c "."%char && all_bytes not_dot t && all_bytes not_sep t
  end.

(** The file name [<class>_<n><ext>] inside the class directory. *)
Definition base_name (class : Class) (n : ClassCount) (ext : string) : string :=
  class ++ "_" ++ strconv.Itoa n ++ ext.

(** The output name [output/<class>/<class>_<n><ext>]. *)
Definition output_name (class : Class) (n : ClassCount) (ext : string) : string :=
  "output/" ++ class ++ "/" ++ class ++ "_" ++ strconv.Itoa n ++ ext.

(** The output name [output/yolo/<n><suffix>] of the yolo branch. *)
Definition yolo_name (n : ClassCount) (suffix : string) : string :=
  "output/yolo/" ++ strconv.Itoa n ++ suffix.

(** The counter that belongs to a class. *)
Definition counter_of (c : Class) : CounterRef :=
  if String.eqb c GUN then AddrGunCount
  else if String.eqb c KNIFE then AddrKnifeCount
  else if String.eqb c WRENCH then AddrWrenchCount
  else if String.eqb c FORK then AddrForkCount
  else if String.eqb c SCREWDRIVER then AddrScrewdriverCount
  else AddrUnknownCount.

(** [st'] has the counters and the directories of [st]. *)
Definition same_counters (st st' : State) : Prop :=
  (forall p, load p st' = load p st) /\ TotalCount st' = TotalCount st /\ dirs st' = dirs st.

(** The sources of the copies among the files, in order. *)
Definition srcs_of (l : list Output) : list string :=
  flat_map (fun o => match o with Copied src _ _ => [src] | Written _ _ => [] end) l.

(** The names of the files written with [ioutil.WriteFile], in order. *)
Definition labels_of (l : list Output) : list string :=
  flat_map (fun o => match o with Written name _ => [name] | Copied _ _ _ => [] end) l.

(** The name of an output file. *)
Definition dest (o : Output) : string :=
  match o with
  | Written name _ => name
  | Copied _ dst _ => dst
  end.

(** The two replacements of the rewrite branch. *)
Definition strip_refs (b : string) : string :=
  strings.ReplaceAll (strings.ReplaceAll b "&#xA;" "") "&#x9;" "".

(** The sample dataset on a disk where every byte transfer breaks off. *)
Definition short_copy_env : Env :=
  {| ToLower := ToLower knife_env; walk := walk knife_env; Stat := Stat knife_env;
     Open_ok := Open_ok knife_env; Create_ok := Create_ok knife_env;
     Copy_ok := fun _ _ => false; WriteFile_ok := WriteFile_ok knife_env;
     Decode := Decode knife_env; MarshalIndent := MarshalIndent knife_env;
     Rel := Rel knife_env |}.

(** The sample dataset with an annotation file that cannot be opened. *)
Definition locked_env : Env :=
  {| ToLower := ToLower knife_env; walk := walk knife_env; Stat := Stat knife_env;
     Open_ok := fun name => negb (String.eqb name "dataset/labels/knife_1.xml");
     Create_ok := Create_ok knife_env;
     Copy_ok := Copy_ok knife_env; WriteFile_ok := WriteFile_ok knife_env;
     Decode := Decode knife_env; MarshalIndent := MarshalIndent knife_env;
     Rel := Rel knife_env |}.

(** ** The classifier *)

Section Classifier.

Variable env : Env.
Variable path : string.

(** The two functions branch on the same five tests. *)
Lemma getIndexFromPath_unfold :
  getIndexFromPath env path =
    if has_keyword env path GUN then gunIndex
    else if has_keyword env path KNIFE then knifeIndex
    else if has_keyword env path WRENCH then wrenchIndex
    else if has_keyword env path FORK then forkIndex
    else if has_keyword env path SCREWDRIVER then screwdriverIndex
    else -1.
Proof. reflexivity. Qed.

Lemma getClassFromPath_unfold :
  getClassFromPath env path =
    if has_keyword env path GUN then (GUN, AddrGunCount)
    else if has_keyword env path KNIFE then (KNIFE, AddrKnifeCount)
    else if has_keyword env path WRENCH then (WRENCH, AddrWrenchCount)
    else if has_keyword env path FORK then (FORK, AddrForkCount)
    else if has_keyword env path SCREWDRIVER then (SCREWDRIVER, AddrScrewdriverCount)
    else (UNKNOWN, AddrUnknownCount).
Proof. reflexivity. Qed.

End Classifier.

(** Splits on the five containment tests of a path. *)
Ltac keyword_split env path :=
  destruct (has_keyword env path GUN) eqn:Hgun;
  destruct (has_keyword env path KNIFE) eqn:Hknife;
  destruct (has_keyword env path WRENCH) eqn:Hwrench;
  destruct (has_keyword env path FORK) eqn:Hfork;
  destruct (has_keyword env path SCREWDRIVER) eqn:Hscrew.

(** Uses a hypothesis over all keywords of [priority] at each of the five. *)
Ltac at_each_keyword H :=
  pose proof (H GUN (or_introl eq_refl));
  pose proof (H KNIFE (or_intror (or_introl eq_refl)));
  pose proof (H WRENCH (or_intror (or_intror (or_introl eq_refl))));
  pose proof (H FORK (or_intror (or_intror (or_intror (or_introl eq_refl)))));
  pose proof (H SCREWDRIVER
                (or_intror (or_intror (or_intror (or_intror (or_introl eq_refl)))))).

Ltac keyword_is k Hin :=
  simpl in Hin;
  destruct Hin as [Hin | [Hin | [Hin | [Hin | [Hin | []]]]]]; subst k.

(** C1.  For every path, [getIndexFromPath] returns one of the six table
    values; a returned index 0, 1, 2, 3 or 4 means that the lower-cased path
    contains knife, fork, gun, wrench or screwdriver respectively; the result
    is -1 exactly when the lower-cased path contains no class keyword; and a
    path that contains one keyword only gets the table index of that
    keyword. *)
Theorem getIndexFromPath_table :
  forall (env : Env) (path : string),
    let has := has_keyword env path in
    let i := getIndexFromPath env path in
    (i = 0 \/ i = 1 \/ i = 2 \/ i = 3 \/ i = 4 \/ i = -1)
    /\ (i = 0 -> has KNIFE = true)
    /\ (i = 1 -> has FORK = true)
    /\ (i = 2 -> has GUN = true)
    /\ (i = 3 -> has WRENCH = true)
    /\ (i = 4 -> has SCREWDRIVER = true)
    /\ (i = -1 <-> forall k, In k priority -> has k = false)
    /\ (forall k, In k priority -> has k = true ->
        (forall k', In k' priority -> k' <> k -> has k' = false) ->
        i = spec_index k).
Proof.
  intros env path has i. subst has i.
  rewrite getIndexFromPath_unfold.
  repeat split.
  - keyword_split env path; cbv; tauto.
  - keyword_split env path; cbv; congruence.
  - keyword_split env path; cbv; congruence.
  - keyword_split env path; cbv; congruence.
  - keyword_split env path; cbv; congruence.
  - keyword_split env path; cbv; congruence.
  - intros Hi k Hin. keyword_is k Hin;
      keyword_split env path; try reflexivity; cbv in Hi; discriminate.
  - intros Hnone. at_each_keyword Hnone.
    repeat match goal with H : has_keyword _ _ _ = false |- _ => rewrite H; clear H end.
    reflexivity.
  - intros k Hin Hk Hothers. at_each_keyword Hothers.
    keyword_is k Hin; rewrite Hk;
      repeat match goal with
        | H : ?a <> ?b -> has_keyword _ _ _ = false |- _ =>
            first [ rewrite (H ltac:(cbv; discriminate)) | clear H ]
        end; reflexivity.
Qed.

(** The table at a path that holds one keyword only. *)
Lemma getIndexFromPath_table_witness :
  getIndexFromPath ascii_env "dataset/Forks/IMG_3.xml" = spec_index FORK.
Proof.
  apply (proj2 (proj2 (proj2 (proj2 (proj2 (proj2 (proj2
           (getIndexFromPath_table ascii_env "dataset/Forks/IMG_3.xml")))))))).
  - simpl. tauto.
  - vm_compute. reflexivity.
  - intros k' Hin Hne. keyword_is k' Hin;
      first [ vm_compute; reflexivity | now elim Hne ].
Defined.

Example getIndexFromPath_knife :
  getIndexFromPath ascii_env "dataset/Knife/IMG_3.xml" = 0.
Proof. reflexivity. Qed.

Example getIndexFromPath_none :
  getIndexFromPath ascii_env "dataset/misc/IMG_3.xml" = -1.
Proof. reflexivity. Qed.

(** C2.  For every path: when exactly one class keyword occurs in the
    lower-cased path, [getClassFromPath] returns that class; when several
    occur, it returns the one that comes first in the order gun, knife,
    wrench, fork, screwdriver (a keyword with no contained keyword before it
    in [priority]); when none occurs, it returns unknown. *)
Theorem getClassFromPath_priority :
  forall (env : Env) (path : string),
    let has := has_keyword env path in
    let c := fst (getClassFromPath env path) in
    (forall k, In k priority -> has k = true ->
       (forall k', In k' priority -> k' <> k -> has k' = false) ->
       c = k)
    /\ (forall before k after,
          priority = (before ++ k :: after)%list ->
          has k = true ->
          (forall k', In k' before -> has k' = false) ->
          c = k)
    /\ ((forall k, In k priority -> has k = false) -> c = UNKNOWN)
    /\ c = hd UNKNOWN (filter has priority).
Proof.
  intros env path has c. subst has c.
  rewrite getClassFromPath_unfold.
  assert (Hfirst :
    forall before k after,
      priority = (before ++ k :: after)%list ->
      has_keyword env path k = true ->
      (forall k', In k' before -> has_keyword env path k' = false) ->
      fst (if has_keyword env path GUN then (GUN, AddrGunCount)
           else if has_keyword env path KNIFE then (KNIFE, AddrKnifeCount)
           else if has_keyword env path WRENCH then (WRENCH, AddrWrenchCount)
           else if has_keyword env path FORK then (FORK, AddrForkCount)
           else if has_keyword env path SCREWDRIVER then (SCREWDRIVER, AddrScrewdriverCount)
           else (UNKNOWN, AddrUnknownCount)) = k).
  { intros before k after Heq Hk Hbefore.
    unfold priority in Heq.
    repeat (destruct before as [|? before];
            [ injection Heq as <- _; rewrite Hk; reflexivity
            | injection Heq as <- Heq;
              rewrite (Hbefore _ (or_introl eq_refl));
              specialize (fun k' H => Hbefore k' (or_intror H)) ]).
    destruct before; discriminate. }
  repeat split.
  - intros k Hin Hk Hothers. at_each_keyword Hothers.
    keyword_is k Hin; rewrite Hk;
      repeat match goal with
        | H : ?a <> ?b -> has_keyword _ _ _ = false |- _ =>
            first [ rewrite (H ltac:(cbv; discriminate)) | clear H ]
        end; reflexivity.
  - exact Hfirst.
  - intros Hnone. at_each_keyword Hnone.
    repeat match goal with H : has_keyword _ _ _ = false |- _ => rewrite H; clear H end.
    reflexivity.
  - unfold priority. simpl filter. keyword_split env path; reflexivity.
Qed.

(** The priority order at two paths that hold two keywords each. *)
Lemma getClassFromPath_priority_witness :
  fst (getClassFromPath ascii_env "dataset/knife/shotgun_1.xml") = GUN
  /\ fst (getClassFromPath ascii_env "dataset/wrench_and_fork/7.xml") = WRENCH.
Proof.
  split.
  - apply (proj1 (proj2 (getClassFromPath_priority ascii_env "dataset/knife/shotgun_1.xml"))
             [] GUN [KNIFE; WRENCH; FORK; SCREWDRIVER]).
    + reflexivity.
    + vm_compute. reflexivity.
    + intros k' [].
  - apply (proj1 (proj2 (getClassFromPath_priority ascii_env "dataset/wrench_and_fork/7.xml"))
             [GUN; KNIFE] WRENCH [FORK; SCREWDRIVER]).
    + reflexivity.
    + vm_compute. reflexivity.
    + intros k' [<- | [<- | []]]; vm_compute; reflexivity.
Defined.

Example getClassFromPath_mixed_case :
  fst (getClassFromPath ascii_env "DATA/Fork/img.XML") = FORK.
Proof. reflexivity. Qed.

Example getClassFromPath_gun_over_knife :
  fst (getClassFromPath ascii_env "dataset/knife/shotgun_1.xml") = GUN.
Proof. reflexivity. Qed.

Example getClassFromPath_fork_over_screwdriver :
  getClassFromPath ascii_env "forks/screwdriver.jpg" = (FORK, AddrForkCount).
Proof. reflexivity. Qed.

(** C10.  For every path, [getIndexFromPath] returns -1 exactly when
    [getClassFromPath] returns unknown, and whenever [getClassFromPath]
    returns a class other than unknown, [getIndexFromPath] returns the table
    index of that class. *)
Theorem index_agrees_with_class :
  forall (env : Env) (path : string),
    let c := fst (getClassFromPath env path) in
    let i := getIndexFromPath env path in
    (i = -1 <-> c = UNKNOWN)
    /\ (c <> UNKNOWN -> i = spec_index c /\ In c priority)
    /\ i = spec_index c.
Proof.
  intros env path c i. subst c i.
  rewrite getIndexFromPath_unfold, getClassFromPath_unfold.
  keyword_split env path; cbv;
    (split; [ split; intro; first [ reflexivity | discriminate ]
            | split; [ intro; split; [ reflexivity | tauto ] | reflexivity ] ]).
Qed.

(** The agreement at a path of class wrench. *)
Lemma index_agrees_with_class_witness :
  getIndexFromPath ascii_env "dataset/Wrench/w1.xml" = spec_index WRENCH
  /\ In WRENCH priority.
Proof.
  apply (proj1 (proj2 (index_agrees_with_class ascii_env "dataset/Wrench/w1.xml"))).
  vm_compute. discriminate.
Defined.

(** ** The normalised box *)

Lemma append_cancel_l :
  forall s a b : string, s ++ a = s ++ b -> a = b.
Proof.
  induction s as [|c s IH]; simpl; intros a b H.
  - exact H.
  - injection H as H. exact (IH _ _ H).
Qed.

(** C3, as amended.  For width 100, height 50 and the box (10, 10, 50, 30)
    the label line is the class index followed by 0.290000 0.380000 0.400000
    0.400000: the centre is ((10+50)/2 - 1) / 100 = 0.29 and
    ((10+30)/2 - 1) / 50 = 0.38, the size 40/100 and 20/50. *)
Theorem yoloLine_sample_box :
  forall classIndex : ClassIndex,
    yoloLine classIndex 10 10 50 30 100 50 =
      strconv.Itoa classIndex ++ " 0.290000 0.380000 0.400000 0.400000".
Proof.
  intro classIndex. unfold yoloLine.
  apply (f_equal (String.append (strconv.Itoa classIndex))).
  vm_compute. reflexivity.
Qed.

(** C3, the counterexample.  For that input no class index makes the label
    line end in 0.280000 0.380000 0.400000 0.400000. *)
Lemma yoloLine_sample_box_not_028 :
  ~ exists classIndex : ClassIndex,
      yoloLine classIndex 10 10 50 30 100 50 =
        strconv.Itoa classIndex ++ " 0.280000 0.380000 0.400000 0.400000".
Proof.
  intros [classIndex H]. unfold yoloLine in H.
  apply append_cancel_l in H. vm_compute in H. discriminate H.
Qed.

(** The whole pass on the sample: the label file holds the line with 0.29. *)
Example scanAllLabelled_yolo_knife :
  scanAllLabelled knife_env true initial =
    Ok tt
      {| GunCount := 0; KnifeCount := 0; WrenchCount := 0; ForkCount := 0;
         ScrewdriverCount := 0; UnknownCount := 0; TotalCount := 1;
         copiedImages := ["dataset/images/knife_1.jpg"];
         dirs := ["output/yolo"; "output/yolo"];
         files :=
           [ Written "output/yolo/0.txt" "0 0.290000 0.380000 0.400000 0.400000";
             Copied "dataset/images/knife_1.jpg" "output/yolo/0.jpg" true ] |}.
Proof. vm_compute. reflexivity. Qed.

(** ** The resolver *)

Section Resolver.

Variable baseName : string.

Lemma walker_match :
  forall found d, is_match baseName d = true -> walker baseName found d = d_path d.
Proof. intros found d H. unfold walker. fold (is_match baseName d). now rewrite H. Qed.

Lemma walker_no_match :
  forall found d, is_match baseName d = false -> walker baseName found d = found.
Proof. intros found d H. unfold walker. fold (is_match baseName d). now rewrite H. Qed.

(** A walk without a match leaves [found] as it was. *)
Lemma walk_no_match :
  forall es found,
    (forall d, In d es -> is_match baseName d = false) ->
    fold_left (walker baseName) es found = found.
Proof.
  induction es as [|d es IH]; intros found Hnone; simpl.
  - reflexivity.
  - rewrite walker_no_match by (apply Hnone; now left).
    apply IH. intros d' Hd'. apply Hnone. now right.
Qed.

(** A walk ends with the path of its last match in [found]. *)
Lemma walk_last_match :
  forall pre d post found,
    is_match baseName d = true ->
    (forall d', In d' post -> is_match baseName d' = false) ->
    fold_left (walker baseName) (pre ++ d :: post)%list found = d_path d.
Proof.
  intros pre d post found Hd Hpost.
  rewrite fold_left_app. simpl.
  rewrite walker_match by exact Hd.
  now apply walk_no_match.
Qed.

End Resolver.

(** C4, as amended.  The resolver returns the path of the last match of the
    walk of [dataset/images] (a non-directory entry whose name is the base
    name of the recorded path, behind which the walk has no other match; its
    path is not empty, as the paths of a walk are);
    [dataset/allimages] decides only when the first walk has no match, again
    by its last match; and the result is empty when neither walk has one. *)
Theorem findCorrespondingFile_last_match :
  forall (env : Env) (p : string),
    let primary := walk env "dataset/images" in
    let fallback := walk env "dataset/allimages" in
    (forall pre d post,
        primary = (pre ++ d :: post)%list ->
        is_match (wanted p) d = true ->
        (forall d', In d' post -> is_match (wanted p) d' = false) ->
        d_path d <> "" ->
        findCorrespondingFile env p = d_path d)
    /\ ((forall d, In d primary -> is_match (wanted p) d = false) ->
        forall pre d post,
          fallback = (pre ++ d :: post)%list ->
          is_match (wanted p) d = true ->
          (forall d', In d' post -> is_match (wanted p) d' = false) ->
          findCorrespondingFile env p = d_path d)
    /\ ((forall d, In d primary -> is_match (wanted p) d = false) ->
        (forall d, In d fallback -> is_match (wanted p) d = false) ->
        findCorrespondingFile env p = "").
Proof.
  intros env p primary fallback. subst primary fallback.
  unfold findCorrespondingFile. fold (wanted p).
  repeat split.
  - intros pre d post Hwalk Hd Hpost Hpath.
    rewrite Hwalk, walk_last_match by assumption.
    destruct (d_path d) as [|c s] eqn:E; [ now elim Hpath | reflexivity ].
  - intros Hnone pre d post Hwalk Hd Hpost.
    rewrite (walk_no_match (wanted p) (walk env "dataset/images")) by exact Hnone.
    simpl. rewrite Hwalk. now apply walk_last_match.
  - intros Hnone1 Hnone2.
    rewrite (walk_no_match (wanted p) (walk env "dataset/images")) by exact Hnone1.
    simpl. now apply walk_no_match.
Qed.

(** C4, the counterexample.  With [x.jpg] in two directories of the primary
    root, the first match of the walk is [a/x.jpg] and the resolver returns
    [b/x.jpg]. *)
Lemma findCorrespondingFile_not_first :
  option_map d_path
    (find (is_match (wanted "C:\labels\x.jpg")) (walk twin_env "dataset/images"))
  = Some "dataset/images/a/x.jpg"
  /\ findCorrespondingFile twin_env "C:\labels\x.jpg" = "dataset/images/b/x.jpg"
  /\ findCorrespondingFile twin_env "C:\labels\x.jpg" <> "dataset/images/a/x.jpg".
Proof.
  repeat split; try (vm_compute; reflexivity).
  vm_compute. discriminate.
Qed.

(** The last match on the disk with the two images of one name. *)
Lemma findCorrespondingFile_last_match_witness :
  findCorrespondingFile twin_env "C:\labels\x.jpg" = "dataset/images/b/x.jpg".
Proof.
  apply (proj1 (findCorrespondingFile_last_match twin_env "C:\labels\x.jpg")
           [ a_dir "dataset/images" "images";
             a_dir "dataset/images/a" "a";
             a_file "dataset/images/a/x.jpg" "x.jpg";
             a_dir "dataset/images/b" "b" ]
           (a_file "dataset/images/b/x.jpg" "x.jpg") []).
  - reflexivity.
  - vm_compute. reflexivity.
  - intros d' [].
  - vm_compute. discriminate.
Defined.

(** ** An annotation that does not decode *)

(** [readLabelled] never returns a nil record together with a nil error, so
    the test [data == nil] of [scanAllLabelled] is never true where it is
    reached. *)
Lemma readLabelled_data_not_nil :
  forall (env : Env) (filename : string),
    readLabelled env filename <> (None, None).
Proof.
  intros env filename. unfold readLabelled.
  destruct (Open_ok env filename); simpl; discriminate.
Qed.

Lemma wanted_empty : wanted "" = ".".
Proof. reflexivity. Qed.

(** An annotation file that opens and leaves the zero record is passed over:
    the callback returns nil and changes nothing, in either mode. *)
Lemma empty_record_skipped :
  forall (env : Env) (yolo : bool) (d : DirEntry) (st : State),
    filepath.Ext (d_Name d) = ".xml" ->
    Open_ok env (d_path d) = true ->
    Decode env (d_path d) labelledXML_zero = labelledXML_zero ->
    (forall e, In e (walk env "dataset/images") -> is_match "." e = false) ->
    (forall e, In e (walk env "dataset/allimages") -> is_match "." e = false) ->
    scanAllLabelled_fn env yolo (d_path d) d st = Ok tt st.
Proof.
  intros env yolo d st Hext Hopen Hzero Hprimary Hfallback.
  unfold scanAllLabelled_fn, readLabelled.
  rewrite Hext, Hopen, Hzero. simpl.
  assert (Hfound : findCorrespondingFile env "" = "").
  { unfold findCorrespondingFile. fold (wanted ""). rewrite wanted_empty.
    rewrite (walk_no_match "." (walk env "dataset/images")) by assumption.
    simpl. now apply walk_no_match. }
  destruct (getClassFromPath env (d_path d)) as [class classCount].
  destruct (if String.eqb class UNKNOWN then getClassFromPath env "" else (class, classCount))
    as [class' classCount'].
  unfold bind, checked. simpl.
  change (Path labelledXML_zero) with "". rewrite Hfound. reflexivity.
Qed.

(** C5, the run on the failing input.  With the one annotation file left
    undecoded, the pass returns no error in either mode and the state is the
    initial one: nothing is reported, nothing is written, the run goes on. *)
Theorem undecoded_annotation_not_reported :
  fst (readLabelled undecoded_env "dataset/labels/knife_1.xml") = Some labelledXML_zero
  /\ scanAllLabelled undecoded_env true initial = Ok tt initial
  /\ scanAllLabelled undecoded_env false initial = Ok tt initial.
Proof. repeat split; vm_compute; reflexivity. Qed.

(** ** Counters and failed copies *)

(** C6, the run on the failing input.  The sweep of a root that holds the
    directory [knife] with one image writes one file, [knife_1.jpg], and
    leaves the knife counter at 2 and the unknown counter at 1: the two
    directories were counted though nothing was written for them. *)
Theorem sweep_counts_directories :
  exists st,
    scanImages sweep_env initial = Ok tt st
    /\ files st = [ Copied "dataset/images/knife/a.jpg" "output/knife/knife_1.jpg" true ]
    /\ KnifeCount st = 2
    /\ UnknownCount st = 1.
Proof. eexists. repeat split; vm_compute; reflexivity. Qed.

(** Every entry of the sweep that is not in [copiedImages] moves the counter
    of its class by one, whatever [copy] returns. *)
Lemma scanImages_fn_counts :
  forall (env : Env) (path : string) (d : DirEntry) (st : State),
    slices_Contains (copiedImages st) path = false ->
    exists st',
      scanImages_fn env path d st = Ok tt st'
      /\ load (snd (getClassFromPath env path)) st' =
           int_add (load (snd (getClassFromPath env path)) st) 1.
Proof.
  intros env path d st Hnew. unfold scanImages_fn. rewrite Hnew. simpl.
  destruct (getClassFromPath env path) as [class classCount]. simpl.
  unfold bind, getOutputFileName, createOutputDir, ret, ignore, modify. simpl.
  match goal with |- context [copy env ?a ?b ?s] => destruct (copy env a b s) eqn:Hcopy end;
    eexists; (split; [ reflexivity | ]);
    unfold copy in Hcopy; simpl in Hcopy;
    repeat match type of Hcopy with
      | context [match ?x with _ => _ end] => destruct x
      end;
    try discriminate; injection Hcopy as <-; try subst;
    destruct classCount; reflexivity.
Qed.

(** C7, the run on the failing input.  In the rewrite mode, with an image
    that [copy] refuses, the pass returns no error, the annotation is written,
    no image is, and the knife counter is 1. *)
Theorem rewrite_counts_failed_copy :
  exists st data,
    scanAllLabelled broken_image_env false initial = Ok tt st
    /\ copy broken_image_env "dataset/images/knife_1.jpg" "output/knife/knife_0.jpg" initial
       = Fail (ErrNotRegular "dataset/images/knife_1.jpg") initial
    /\ files st = [ Written "output/knife/knife_0.xml" data ]
    /\ copiedImages st = []
    /\ KnifeCount st = 1.
Proof. do 2 eexists. repeat split; vm_compute; reflexivity. Qed.

(** The same run when the annotation cannot be written: the pass stops with
    the error, before the copy and the increment. *)
Example rewrite_write_failure :
  exists st,
    scanAllLabelled unwritable_env false initial
    = Fail (ErrWriteFile "output/knife/knife_0.xml") st
    /\ files st = [] /\ KnifeCount st = 0.
Proof. eexists. repeat split; vm_compute; reflexivity. Qed.

(** Whenever the rewrite branch returns nil the counter has moved by one;
    and when [copy] refuses the image, the annotation is all that was
    written. *)
Lemma rewriteAnnotation_counts_any_copy :
  forall (env : Env) (path : string) (data : labelledXML) (class : Class)
         (classCount : CounterRef) (foundImage : string) (st st' : State),
    rewriteAnnotation env path data class classCount foundImage st = Ok tt st' ->
    load classCount st' = int_add (load classCount st) 1
    /\ (Stat env foundImage <> Some true ->
        exists name b, files st' = (files st ++ [Written name b])%list).
Proof.
  intros env path data class classCount foundImage st st' Hrun.
  unfold rewriteAnnotation, bind, get, getOutputFileName, createOutputDir, ret in Hrun.
  simpl in Hrun.
  unfold checked in Hrun at 1.
  destruct (Rel env _ _) as [relativeImagePath [e|]]; simpl in Hrun; [ discriminate | ].
  destruct (MarshalIndent env _) as [b [e|]]; unfold bind, checked in Hrun; simpl in Hrun;
    [ discriminate | ].
  unfold WriteFile in Hrun.
  destruct (WriteFile_ok env _); [ | discriminate ].
  unfold ignore, modify, copy in Hrun. simpl in Hrun.
  destruct (Stat env foundImage) as [[|]|]; simpl in Hrun.
  - destruct (Open_ok env foundImage); simpl in Hrun;
      [ destruct (Create_ok env _); simpl in Hrun;
        [ destruct (Copy_ok env _ _); simpl in Hrun | ] | ];
      injection Hrun as <-; (split; [ destruct classCount; reflexivity | ]);
      intro H; now elim H.
  - injection Hrun as <-. split; [ destruct classCount; reflexivity | ].
    intros _. destruct classCount; do 2 eexists; reflexivity.
  - injection Hrun as <-. split; [ destruct classCount; reflexivity | ].
    intros _. destruct classCount; do 2 eexists; reflexivity.
Qed.

(** ** Geometry fields that do not parse *)

(** C8, the run on the failing input.  [xmax] does not parse, yet the pass
    returns no error, writes a label computed with [xmax = 0] and copies the
    image. *)
Theorem unparsed_xmax_not_reported :
  strconv.Atoi "50.0" = (0, Some (ErrSyntax "50.0"))
  /\ exists st,
       scanAllLabelled bad_xmax_env true initial = Ok tt st
       /\ files st =
            [ Written "output/yolo/0.txt" "0 0.040000 0.380000 -0.100000 0.400000";
              Copied "dataset/images/knife_1.jpg" "output/yolo/0.jpg" true ].
Proof. split; [ | eexists; split ]; vm_compute; reflexivity. Qed.

(** Only the error of the last conversion, that of [height], reaches the
    test: when [height] parses, the branch returns no conversion error,
    whatever the other five fields hold. *)
Lemma writeYolo_checks_height_only :
  forall (env : Env) (data : labelledXML) (classIndex : ClassIndex) (foundImage : string)
         (st st' : State) (e : error),
    snd (strconv.Atoi (Height (Size data))) = None ->
    writeYolo env data classIndex foundImage st = Fail e st' ->
    exists name, e = ErrWriteFile name.
Proof.
  intros env data classIndex foundImage st st' e Hheight Hfail.
  unfold writeYolo, bind, createOutputDir, get in Hfail. simpl in Hfail.
  destruct (strconv.Atoi (Xmax (Bndbox (Object data)))) as [xMax e1].
  destruct (strconv.Atoi (Xmin (Bndbox (Object data)))) as [xMin e2].
  destruct (strconv.Atoi (Ymax (Bndbox (Object data)))) as [yMax e3].
  destruct (strconv.Atoi (Ymin (Bndbox (Object data)))) as [yMin e4].
  destruct (strconv.Atoi (Width (Size data))) as [width e5].
  destruct (strconv.Atoi (Height (Size data))) as [height e6].
  simpl in Hheight. subst e6.
  unfold bind, checked, WriteFile, ignore, modify in Hfail. simpl in Hfail.
  destruct (WriteFile_ok env _) in Hfail.
  - destruct (copy env _ _ _) in Hfail; discriminate Hfail.
  - injection Hfail as <- _. eexists. reflexivity.
Qed.

(** And a [height] that does not parse is reported. *)
Lemma writeYolo_reports_height :
  forall (env : Env) (data : labelledXML) (classIndex : ClassIndex) (foundImage : string)
         (st : State) (e : error),
    snd (strconv.Atoi (Height (Size data))) = Some e ->
    error_of (writeYolo env data classIndex foundImage st) = Some e
    /\ files (state_of (writeYolo env data classIndex foundImage st)) = files st.
Proof.
  intros env data classIndex foundImage st e Hheight.
  unfold writeYolo, bind, createOutputDir, get. simpl.
  destruct (strconv.Atoi (Xmax (Bndbox (Object data)))) as [xMax e1].
  destruct (strconv.Atoi (Xmin (Bndbox (Object data)))) as [xMin e2].
  destruct (strconv.Atoi (Ymax (Bndbox (Object data)))) as [yMax e3].
  destruct (strconv.Atoi (Ymin (Bndbox (Object data)))) as [yMin e4].
  destruct (strconv.Atoi (Width (Size data))) as [width e5].
  destruct (strconv.Atoi (Height (Size data))) as [height e6].
  simpl in Hheight. subst e6.
  unfold bind, checked. simpl. split; reflexivity.
Qed.

(** ** The copied-image set *)

Lemma slices_Contains_In :
  forall (l : list string) (v : string), slices_Contains l v = true <-> In v l.
Proof.
  intros l v. unfold slices_Contains. rewrite existsb_exists. split.
  - intros [x [Hin Heq]]. apply String.eqb_eq in Heq. now subst.
  - intros Hin. exists v. split; [ exact Hin | apply String.eqb_refl ].
Qed.

Section Keeps.

Variable I : State -> Prop.

Lemma keeps_bind :
  forall (A B : Type) (m : M A) (k : A -> M B),
    keeps I m -> (forall a, keeps I (k a)) -> keeps I (bind m k).
Proof.
  intros A B m k Hm Hk st HI. unfold bind.
  specialize (Hm st HI). destruct (m st) as [a st' | e st']; simpl in Hm.
  - now apply Hk.
  - exact Hm.
Qed.

Lemma keeps_ret : forall (A : Type) (a : A), keeps I (ret a).
Proof. intros A a st HI. exact HI. Qed.

Lemma keeps_get : forall (A : Type) (f : State -> A), keeps I (get f).
Proof. intros A f st HI. exact HI. Qed.

Lemma keeps_checked : forall (A : Type) (r : A * option error), keeps I (checked r).
Proof. intros A r st HI. unfold checked. now destruct (snd r). Qed.

Lemma keeps_fail : forall (A : Type) (e : error), keeps I (fun st => @Fail A e st).
Proof. intros A e st HI. exact HI. Qed.

Lemma keeps_ignore : forall (A : Type) (m : M A), keeps I m -> keeps I (ignore m).
Proof.
  intros A m Hm st HI. specialize (Hm st HI). unfold ignore.
  now destruct (m st).
Qed.

(** A walk keeps what its callback keeps at every entry. *)
Lemma keeps_walk_entries :
  forall (fn : string -> DirEntry -> M unit) (es : list DirEntry),
    (forall d, In d es -> keeps I (fn (d_path d) d)) ->
    keeps I (walk_entries fn es).
Proof.
  intros fn es. induction es as [|d es IH]; intros Hfn st HI; simpl.
  - exact HI.
  - pose proof (Hfn d (or_introl eq_refl) st HI) as Hd.
    destruct (fn (d_path d) d st) as [[] st' | e st']; simpl in Hd.
    + apply IH; [ | exact Hd ]. intros d' Hd'. apply Hfn. now right.
    + exact Hd.
Qed.

End Keeps.

Section AnnotationPass.

Variable env : Env.

Lemma recorded_initial : recorded env initial.
Proof. split; simpl; intros; contradiction. Qed.

Lemma keeps_createOutputDir : forall dir, keeps (recorded env) (createOutputDir dir).
Proof. intros dir st HI. exact HI. Qed.

Lemma keeps_getOutputFileName :
  forall class n ext, keeps (recorded env) (getOutputFileName class n ext).
Proof.
  intros class n ext. unfold getOutputFileName.
  apply keeps_bind; [ apply keeps_createOutputDir | intro; apply keeps_ret ].
Qed.

Lemma keeps_WriteFile : forall name data, keeps (recorded env) (WriteFile env name data).
Proof.
  intros name data st [Href Hrec]. unfold WriteFile.
  destruct (WriteFile_ok env name); simpl; [ | now split ].
  split; [ exact Href | ].
  intros s dst c Hin. apply in_app_or in Hin. destruct Hin as [Hin | [Hin | []]].
  - exact (Hrec _ _ _ Hin).
  - discriminate Hin.
Qed.

Lemma keeps_counter :
  forall f : State -> State,
    (forall st, copiedImages (f st) = copiedImages st) ->
    (forall st, files (f st) = files st) ->
    keeps (recorded env) (modify f).
Proof.
  intros f Hc Hf st [Href Hrec]. unfold modify, recorded. simpl.
  rewrite Hc, Hf. now split.
Qed.

(** [copy] keeps the invariant when its source is referenced. *)
Lemma keeps_copy :
  forall src dst, referenced env src = true -> keeps (recorded env) (copy env src dst).
Proof.
  intros src dst Hsrc st [Href Hrec]. unfold copy.
  destruct (Stat env src) as [[|]|]; simpl; try now split.
  destruct (Open_ok env src); simpl; try now split.
  destruct (Create_ok env dst); simpl; try now split.
  assert (Hnew : recorded env
            (set_copiedImages (copiedImages st ++ [src])
               (set_files (files st ++ [Copied src dst (Copy_ok env dst src)]) st))).
  { split; simpl.
    - intros s Hin. apply in_app_or in Hin. destruct Hin as [Hin | [<- | []]].
      + now apply Href.
      + exact Hsrc.
    - intros s dst' c Hin. apply in_or_app.
      apply in_app_or in Hin. destruct Hin as [Hin | [Hin | []]].
      + left. exact (Hrec _ _ _ Hin).
      + right. injection Hin as <- _ _. now left. }
  destruct (Copy_ok env dst src); exact Hnew.
Qed.

Lemma keeps_rewriteAnnotation :
  forall path data class classCount foundImage,
    referenced env foundImage = true ->
    keeps (recorded env) (rewriteAnnotation env path data class classCount foundImage).
Proof.
  intros path data class classCount foundImage Href. unfold rewriteAnnotation.
  apply keeps_bind; [ apply keeps_get | intro n1 ].
  apply keeps_bind; [ apply keeps_getOutputFileName | intro outputFile ].
  apply keeps_bind; [ apply keeps_get | intro n2 ].
  apply keeps_bind; [ apply keeps_getOutputFileName | intro xmlOutFile ].
  apply keeps_bind; [ apply keeps_checked | intro relativeImagePath ].
  destruct (MarshalIndent env _) as [b err].
  apply keeps_bind; [ apply keeps_checked | intros _ ].
  apply keeps_bind; [ apply keeps_WriteFile | intros _ ].
  apply keeps_bind; [ apply keeps_ignore, keeps_copy, Href | intros _ ].
  apply keeps_counter; intro st; destruct classCount; reflexivity.
Qed.

Lemma keeps_writeYolo :
  forall data classIndex foundImage,
    referenced env foundImage = true ->
    keeps (recorded env) (writeYolo env data classIndex foundImage).
Proof.
  intros data classIndex foundImage Href. unfold writeYolo.
  apply keeps_bind; [ apply keeps_createOutputDir | intro dir1 ].
  apply keeps_bind; [ apply keeps_get | intro n1 ].
  apply keeps_bind; [ apply keeps_createOutputDir | intro dir2 ].
  apply keeps_bind; [ apply keeps_get | intro n2 ].
  destruct (strconv.Atoi (Xmax (Bndbox (Object data)))) as [xMax e1].
  destruct (strconv.Atoi (Xmin (Bndbox (Object data)))) as [xMin e2].
  destruct (strconv.Atoi (Ymax (Bndbox (Object data)))) as [yMax e3].
  destruct (strconv.Atoi (Ymin (Bndbox (Object data)))) as [yMin e4].
  destruct (strconv.Atoi (Width (Size data))) as [width e5].
  destruct (strconv.Atoi (Height (Size data))) as [height e6].
  apply keeps_bind; [ apply keeps_checked | intros _ ].
  apply keeps_bind; [ apply keeps_WriteFile | intros _ ].
  apply keeps_bind; [ apply keeps_ignore, keeps_copy, Href | intros _ ].
  apply keeps_counter; intro st; reflexivity.
Qed.

(** The callback of the annotation pass keeps the invariant at every entry
    of the walk of [dataset]. *)
Lemma keeps_scanAllLabelled_fn :
  forall yolo d,
    In d (walk env "dataset") ->
    keeps (recorded env) (scanAllLabelled_fn env yolo (d_path d) d).
Proof.
  intros yolo d Hd. unfold scanAllLabelled_fn.
  destruct (String.eqb (filepath.Ext (d_Name d)) ".xml") eqn:Hext; [ | apply keeps_ret ].
  unfold readLabelled.
  destruct (Open_ok env (d_path d)); simpl.
  - apply keeps_bind; [ apply keeps_checked | intros _ ].
    set (data := Decode env (d_path d) labelledXML_zero).
    assert (Href : referenced env (findCorrespondingFile env (Path data)) = true).
    { unfold referenced. apply existsb_exists. exists d. split; [ exact Hd | ].
      rewrite Hext. simpl. apply String.eqb_refl. }
    destruct (getClassFromPath env (d_path d)) as [class classCount].
    destruct (if String.eqb class UNKNOWN then getClassFromPath env (Path data)
              else (class, classCount)) as [class' classCount'].
    destruct (negb (String.length (findCorrespondingFile env (Path data)) =? 0)%nat);
      [ | apply keeps_ret ].
    destruct (negb yolo).
    + now apply keeps_rewriteAnnotation.
    + now apply keeps_writeYolo.
  - apply keeps_bind; [ apply keeps_checked | intros _ ]. apply keeps_fail.
Qed.

Lemma recorded_after_scanAllLabelled :
  forall yolo, recorded env (state_of (scanAllLabelled env yolo initial)).
Proof.
  intro yolo. unfold scanAllLabelled.
  apply (keeps_walk_entries (recorded env)); [ | apply recorded_initial ].
  intros d Hd. now apply keeps_scanAllLabelled_fn.
Qed.

End AnnotationPass.

Section Sweep.

Variable env : Env.

(** One entry of the sweep: a recorded path changes nothing; any other path
    is either refused by [copy], or copied once and recorded. *)
Lemma scanImages_fn_step :
  forall (path : string) (d : DirEntry) (st : State),
    exists st',
      scanImages_fn env path d st = Ok tt st'
      /\ ((In path (copiedImages st) /\ st' = st)
          \/ (~ In path (copiedImages st)
              /\ ((copiedImages st' = copiedImages st /\ files st' = files st
                   /\ ~ copyable env path)
                  \/ (exists dst,
                        copiedImages st' = (copiedImages st ++ [path])%list
                        /\ files st' =
                             (files st ++ [Copied path dst (Copy_ok env dst path)])%list)))).
Proof.
  intros path d st. unfold scanImages_fn.
  destruct (slices_Contains (copiedImages st) path) eqn:Hin; simpl.
  - exists st. split; [ reflexivity | left ]. split; [ | reflexivity ].
    now apply slices_Contains_In.
  - assert (Hnot : ~ In path (copiedImages st)).
    { intro H. apply slices_Contains_In in H. congruence. }
    destruct (getClassFromPath env path) as [class classCount].
    unfold bind, getOutputFileName, createOutputDir, ret, ignore, modify, copy. simpl.
    destruct (Stat env path) as [[|]|] eqn:Hstat; simpl.
    + destruct (Open_ok env path) eqn:Hopen; simpl.
      * match goal with |- context [Create_ok env ?dst] =>
          destruct (Create_ok env dst) eqn:Hcreate; simpl
        end.
        -- match goal with |- context [Copy_ok env ?dst path] =>
             destruct (Copy_ok env dst path) eqn:Hcopy; simpl;
             (eexists; split; [ reflexivity | right; split; [ exact Hnot | right ] ];
              exists dst; rewrite Hcopy; destruct classCount; split; reflexivity)
           end.
        -- eexists; split; [ reflexivity | right; split; [ exact Hnot | left ] ].
           destruct classCount; (split; [ reflexivity | split; [ reflexivity | ] ]);
             intros (_ & _ & Hc & _); rewrite Hc in Hcreate; discriminate.
      * eexists; split; [ reflexivity | right; split; [ exact Hnot | left ] ].
        destruct classCount; (split; [ reflexivity | split; [ reflexivity | ] ]);
          intros (_ & Ho & _); congruence.
    + eexists; split; [ reflexivity | right; split; [ exact Hnot | left ] ].
      destruct classCount; (split; [ reflexivity | split; [ reflexivity | ] ]);
        intros (Hs & _); congruence.
    + eexists; split; [ reflexivity | right; split; [ exact Hnot | left ] ].
      destruct classCount; (split; [ reflexivity | split; [ reflexivity | ] ]);
        intros (Hs & _); congruence.
Qed.

(** The sweep never returns an error. *)
Lemma sweep_completes :
  forall (es : list DirEntry) (st : State),
    exists st', walk_entries (scanImages_fn env) es st = Ok tt st'.
Proof.
  induction es as [|d es IH]; intro st; simpl.
  - now exists st.
  - destruct (scanImages_fn_step (d_path d) d st) as [st' [Hstep _]].
    rewrite Hstep. apply IH.
Qed.

Lemma filter_is_copy_of_other :
  forall (p path dst : string) (c : bool) (l : list Output),
    path <> p ->
    filter (is_copy_of p) (l ++ [Copied path dst c]) = filter (is_copy_of p) l.
Proof.
  intros p path dst c l Hne. rewrite filter_app. simpl.
  destruct (String.eqb path p) eqn:E.
  - apply String.eqb_eq in E. contradiction.
  - apply app_nil_r.
Qed.

(** A recorded source gets no further copy from the sweep. *)
Lemma sweep_skips_recorded :
  forall (p : string) (es : list DirEntry) (st : State),
    In p (copiedImages st) ->
    filter (is_copy_of p) (files (state_of (walk_entries (scanImages_fn env) es st)))
    = filter (is_copy_of p) (files st).
Proof.
  intros p es. induction es as [|d es IH]; intros st Hin; simpl.
  - reflexivity.
  - destruct (scanImages_fn_step (d_path d) d st) as [st' [Hstep Hcases]].
    rewrite Hstep.
    destruct Hcases as [[_ ->] | [Hnot [(Hc & Hf & _) | [dst [Hc Hf]]]]].
    + now apply IH.
    + rewrite IH by (rewrite Hc; exact Hin). now rewrite Hf.
    + rewrite IH by (rewrite Hc; apply in_or_app; now left).
      rewrite Hf. apply filter_is_copy_of_other.
      intro Heq. rewrite Heq in Hnot. contradiction.
Qed.

(** A source that is not recorded, that [copy] accepts and that the walk
    lists gets exactly one more copy, a complete one. *)
Lemma sweep_copies_once :
  forall (p : string) (es : list DirEntry) (st : State),
    (exists d, In d es /\ d_path d = p) ->
    ~ In p (copiedImages st) ->
    copyable env p ->
    exists dst,
      filter (is_copy_of p) (files (state_of (walk_entries (scanImages_fn env) es st)))
      = (filter (is_copy_of p) (files st) ++ [Copied p dst true])%list.
Proof.
  intros p es. induction es as [|d0 es IH]; intros st [d [Hd Hpath]] Hnot Hcopyable.
  - contradiction.
  - simpl.
    destruct (scanImages_fn_step (d_path d0) d0 st) as [st' [Hstep Hcases]].
    rewrite Hstep.
    destruct (string_dec (d_path d0) p) as [Heq | Hne].
    + rewrite Heq in Hcases.
      destruct Hcases as [[Hin _] | [_ [(_ & _ & Hno) | [dst [Hc Hf]]]]];
        try contradiction.
      exists dst.
      rewrite sweep_skips_recorded by (rewrite Hc; apply in_or_app; right; now left).
      rewrite Hf, filter_app. simpl. rewrite String.eqb_refl.
      destruct Hcopyable as (_ & _ & _ & Hcopy). now rewrite Hcopy.
    + assert (Hrest : exists d, In d es /\ d_path d = p).
      { destruct Hd as [<- | Hd]; [ contradiction | now exists d ]. }
      destruct Hcases as [[_ ->] | [_ [(Hc & Hf & _) | [dst [Hc Hf]]]]].
      * now apply IH.
      * destruct (IH st' Hrest) as [dst Hdst];
          [ now rewrite Hc | exact Hcopyable | ].
        exists dst. now rewrite Hdst, Hf.
      * destruct (IH st' Hrest) as [dst' Hdst];
          [ rewrite Hc; intro H; apply in_app_or in H;
            destruct H as [H | [H | []]]; contradiction
          | exact Hcopyable | ].
        exists dst'. rewrite Hdst, Hf.
        now rewrite filter_is_copy_of_other.
Qed.

End Sweep.

Lemma filter_is_copy_of_nil :
  forall (p : string) (l : list Output),
    (forall dst c, ~ In (Copied p dst c) l) -> filter (is_copy_of p) l = [].
Proof.
  intros p l. induction l as [|o l IH]; intro Hno; simpl.
  - reflexivity.
  - destruct o as [name data | src dst c]; simpl.
    + apply IH. intros dst c H. apply (Hno dst c). now right.
    + destruct (String.eqb src p) eqn:E.
      * apply String.eqb_eq in E. subst src. exfalso. apply (Hno dst c). now left.
      * apply IH. intros dst' c' H. apply (Hno dst' c'). now right.
Qed.

(** C9.  After an annotation pass that returned no error, in either mode:
    every image copy made by the pass has its source in [copiedImages]; the
    sweep adds no copy of a source that is in [copiedImages]; and every entry
    of the walk of [dataset/images] that no annotation resolves to, and that
    [copy] can read and write, has exactly one copy after the sweep.  The
    sweep itself returns no error. *)
Theorem copied_once :
  forall (env : Env) (yolo : bool) (st1 : State),
    scanAllLabelled env yolo initial = Ok tt st1 ->
    let final := state_of (scanImages env st1) in
    (forall src dst c, In (Copied src dst c) (files st1) -> In src (copiedImages st1))
    /\ (forall src,
          In src (copiedImages st1) ->
          filter (is_copy_of src) (files final) = filter (is_copy_of src) (files st1))
    /\ (forall d,
          In d (walk env "dataset/images") ->
          referenced env (d_path d) = false ->
          copyable env (d_path d) ->
          exists dst, filter (is_copy_of (d_path d)) (files final) = [Copied (d_path d) dst true])
    /\ error_of (scanImages env st1) = None.
Proof.
  intros env yolo st1 Hpass final. subst final.
  pose proof (recorded_after_scanAllLabelled env yolo) as [Href Hrec].
  rewrite Hpass in Href, Hrec. simpl in Href, Hrec.
  repeat split.
  - exact Hrec.
  - intros src Hsrc. unfold scanImages. now apply sweep_skips_recorded.
  - intros d Hd Hunref Hcopyable.
    assert (Hnot : ~ In (d_path d) (copiedImages st1)).
    { intro H. apply Href in H. congruence. }
    destruct (sweep_copies_once env (d_path d) (walk env "dataset/images") st1)
      as [dst Hdst]; try assumption.
    { now exists d. }
    exists dst. unfold scanImages. rewrite Hdst.
    rewrite filter_is_copy_of_nil; [ reflexivity | ].
    intros dst' c H. apply Hnot. exact (Hrec _ _ _ H).
  - unfold scanImages.
    destruct (sweep_completes env (walk env "dataset/images") st1) as [st' ->].
    reflexivity.
Qed.

(** The image [fork_7.jpg], which no annotation names, after a whole run. *)
Lemma copied_once_witness :
  exists dst,
    filter (is_copy_of "dataset/images/fork_7.jpg")
      (files (state_of
                (scanImages spare_env (state_of (scanAllLabelled spare_env true initial)))))
    = [ Copied "dataset/images/fork_7.jpg" dst true ].
Proof.
  refine (proj1 (proj2 (proj2
            (copied_once spare_env true
               (state_of (scanAllLabelled spare_env true initial)) _)))
            (a_file "dataset/images/fork_7.jpg" "fork_7.jpg") _ _ _).
  - vm_compute. reflexivity.
  - simpl. tauto.
  - vm_compute. reflexivity.
  - repeat split; intros; reflexivity.
Defined.

Example main_spare :
  files (state_of (main spare_env initial)) =
    [ Written "output/yolo/0.txt" "0 0.290000 0.380000 0.400000 0.400000";
      Copied "dataset/images/knife_1.jpg" "output/yolo/0.jpg" true;
      Copied "dataset/images/fork_7.jpg" "output/fork/fork_0.jpg" true ].
Proof. vm_compute. reflexivity. Qed.

(** ** Path elements and output names *)

Lemma no_sep_app : forall a b, no_sep (a ++ b) = no_sep a && no_sep b.
Proof.
  induction a as [|c a IH]; intro b; simpl.
  - reflexivity.
  - rewrite IH. now rewrite andb_assoc.
Qed.

Lemma elements_no_sep : forall s, no_sep s = true -> filepath.elements s = [s].
Proof.
  induction s as [|c s IH]; simpl; intro H.
  - reflexivity.
  - apply andb_prop in H. destruct H as [Hc Hs].
    apply negb_true_iff in Hc. rewrite Hc, (IH Hs). reflexivity.
Qed.

Lemma elements_cons :
  forall a rest, no_sep a = true ->
    filepath.elements (a ++ String "/" rest) = a :: filepath.elements rest.
Proof.
  induction a as [|c a IH]; simpl; intros rest H.
  - reflexivity.
  - apply andb_prop in H. destruct H as [Hc Hs].
    apply negb_true_iff in Hc. rewrite Hc, (IH rest Hs). reflexivity.
Qed.

Lemma plain_step :
  forall rooted out e, plain e = true -> filepath.clean_step rooted out e = e :: out.
Proof.
  intros rooted out e H. unfold plain in H.
  repeat (apply andb_prop in H; destruct H as [H ?]).
  unfold filepath.clean_step.
  apply negb_true_iff in H. rewrite H.
  match goal with H1 : negb (String.eqb e ".") = true |- _ => apply negb_true_iff in H1; rewrite H1 end.
  match goal with H1 : negb (String.eqb e "..") = true |- _ => apply negb_true_iff in H1; rewrite H1 end.
  reflexivity.
Qed.

Lemma plain_not_rooted :
  forall e rest, plain e = true -> String.prefix "/" (e ++ rest) = false.
Proof.
  intros e rest H. unfold plain in H.
  repeat (apply andb_prop in H; destruct H as [H ?]).
  destruct e as [|c e]; [ discriminate | ].
  match goal with
  | H1 : no_sep (String c e) = true |- _ =>
      simpl in H1; apply andb_prop in H1; destruct H1 as [H1 _];
      apply negb_true_iff in H1; unfold filepath.is_sep in H1
  end.
  destruct (String.prefix "/" (String c e ++ rest)) eqn:E; [ | reflexivity ].
  apply String.prefix_correct in E. simpl in E.
  injection E as E. subst c. discriminate.
Qed.

Lemma app_not_empty : forall a b, String.eqb a "" = false -> String.eqb (a ++ b) "" = false.
Proof. intros [|c a] b H; [ discriminate | reflexivity ]. Qed.

Lemma plain_nonempty : forall e, plain e = true -> String.eqb e "" = false.
Proof.
  intros e H. unfold plain in H.
  repeat (apply andb_prop in H; destruct H as [H ?]).
  now apply negb_true_iff in H.
Qed.

Lemma plain_no_sep : forall e, plain e = true -> no_sep e = true.
Proof.
  intros e H. unfold plain in H.
  repeat (apply andb_prop in H; destruct H as [H ?]). assumption.
Qed.

(** Clean leaves a path of two plain elements alone. *)
Lemma Clean_two :
  forall a e, plain a = true -> plain e = true ->
    filepath.Clean (a ++ "/" ++ e) = a ++ "/" ++ e.
Proof.
  intros a e Ha He. unfold filepath.Clean.
  rewrite app_not_empty by now apply plain_nonempty.
  rewrite plain_not_rooted by exact Ha.
  simpl (String.append "/" e).
  rewrite elements_cons by now apply plain_no_sep.
  rewrite elements_no_sep by now apply plain_no_sep.
  simpl fold_left. rewrite !plain_step by assumption.
  simpl. 
  rewrite app_not_empty by now apply plain_nonempty. reflexivity.
Qed.

Lemma Clean_three :
  forall a b e, plain a = true -> plain b = true -> plain e = true ->
    filepath.Clean (a ++ "/" ++ b ++ "/" ++ e) = a ++ "/" ++ b ++ "/" ++ e.
Proof.
  intros a b e Ha Hb He. unfold filepath.Clean.
  rewrite app_not_empty by now apply plain_nonempty.
  rewrite plain_not_rooted by exact Ha.
  simpl (String.append "/" _).
  rewrite elements_cons by now apply plain_no_sep.
  simpl (String.append "/" e).
  rewrite elements_cons by now apply plain_no_sep.
  rewrite elements_no_sep by now apply plain_no_sep.
  simpl fold_left. rewrite !plain_step by assumption.
  simpl.
  rewrite app_not_empty by now apply plain_nonempty. reflexivity.
Qed.

Lemma all_bytes_app :
  forall P a b, all_bytes P (a ++ b) = all_bytes P a && all_bytes P b.
Proof.
  intros P a b. induction a as [|c a IH]; simpl.
  - reflexivity.
  - rewrite IH. apply andb_assoc.
Qed.

Lemma all_bytes_impl :
  forall (P Q : ascii -> bool) s,
    (forall c, P c = true -> Q c = true) -> all_bytes P s = true -> all_bytes Q s = true.
Proof.
  intros P Q s HPQ. induction s as [|c s IH]; simpl; intro H.
  - reflexivity.
  - apply andb_prop in H. destruct H as [Hc Hs].
    now rewrite (HPQ c Hc), (IH Hs).
Qed.

Lemma no_sep_all_bytes : forall s, no_sep s = all_bytes not_sep s.
Proof. induction s as [|c s IH]; simpl; [ reflexivity | now rewrite IH ]. Qed.

Lemma decimal_byte_not_sep : forall c, decimal_byte c = true -> not_sep c = true.
Proof.
  intros [[|] [|] [|] [|] [|] [|] [|] [|]] H; try reflexivity; discriminate H.
Qed.

Lemma decimal_byte_not_dot : forall c, decimal_byte c = true -> not_dot c = true.
Proof.
  intros [[|] [|] [|] [|] [|] [|] [|] [|]] H; try reflexivity; discriminate H.
Qed.

Lemma string_of_uint_decimal :
  forall u, all_bytes decimal_byte (NilEmpty.string_of_uint u) = true.
Proof. induction u; simpl; try reflexivity; exact IHu. Qed.

Lemma string_of_uint_nonnil :
  forall u, u <> Decimal.Nil -> NilZero.string_of_uint u = NilEmpty.string_of_uint u.
Proof. intros [] H; try reflexivity. now elim H. Qed.

Lemma to_int_cases :
  forall z, exists u, u <> Decimal.Nil /\ (Z.to_int z = Decimal.Pos u \/ Z.to_int z = Decimal.Neg u).
Proof.
  intros [|p|p]; simpl.
  - exists (Decimal.D0 Decimal.Nil). split; [ discriminate | now left ].
  - exists (Pos.to_uint p). split; [ apply DecimalPos.Unsigned.to_uint_nonnil | now left ].
  - exists (Pos.to_uint p). split; [ apply DecimalPos.Unsigned.to_uint_nonnil | now right ].
Qed.

(** [Itoa] writes decimal digits, after a minus sign for a negative number. *)
Lemma Itoa_decimal : forall n, all_bytes decimal_byte (strconv.Itoa n) = true.
Proof.
  intro n. unfold strconv.Itoa.
  destruct (to_int_cases n) as [u [Hu [-> | ->]]]; simpl;
    rewrite string_of_uint_nonnil by exact Hu; apply string_of_uint_decimal.
Qed.

Lemma uint_nonempty :
  forall u, u <> Decimal.Nil -> exists c s, NilEmpty.string_of_uint u = String c s.
Proof. intros [] H; try (now elim H); simpl; eauto. Qed.

Lemma Itoa_nonempty : forall n, exists c s, strconv.Itoa n = String c s.
Proof.
  intro n. unfold strconv.Itoa.
  destruct (to_int_cases n) as [u [Hu [-> | ->]]]; simpl.
  - rewrite string_of_uint_nonnil by exact Hu. now apply uint_nonempty.
  - eauto.
Qed.

Lemma string_of_uint_inj :
  forall u v, NilEmpty.string_of_uint u = NilEmpty.string_of_uint v -> u = v.
Proof.
  intros u v H. pose proof (NilEmpty.usu u) as Hu. rewrite H, NilEmpty.usu in Hu.
  now injection Hu.
Qed.

Lemma string_of_uint_no_minus :
  forall u s, NilEmpty.string_of_uint u <> String "-" s.
Proof. intros [] s H; discriminate H. Qed.

(** [Itoa] is injective. *)
Lemma Itoa_inj : forall n m, strconv.Itoa n = strconv.Itoa m -> n = m.
Proof.
  intros n m H. apply DecimalZ.to_int_inj.
  unfold strconv.Itoa in H.
  destruct (to_int_cases n) as [u [Hu [En | En]]];
    destruct (to_int_cases m) as [v [Hv [Em | Em]]];
    rewrite En, Em in *; simpl in H;
    rewrite ?string_of_uint_nonnil in H by assumption.
  - f_equal. now apply string_of_uint_inj.
  - exfalso. exact (string_of_uint_no_minus _ _ H).
  - exfalso. symmetry in H. exact (string_of_uint_no_minus _ _ H).
  - injection H as H. f_equal. now apply string_of_uint_inj.
Qed.

Lemma append_nil_r : forall s : string, s ++ "" = s.
Proof. induction s as [|c s IH]; simpl; [ reflexivity | now rewrite IH ]. Qed.

Lemma append_assoc : forall a b c : string, (a ++ b) ++ c = a ++ b ++ c.
Proof. induction a as [|x a IH]; simpl; intros; [ reflexivity | now rewrite IH ]. Qed.

Lemma string_of_list_ascii_app :
  forall a b, string_of_list_ascii (a ++ b)%list = string_of_list_ascii a ++ string_of_list_ascii b.
Proof. induction a as [|x a IH]; simpl; intros; [ reflexivity | now rewrite IH ]. Qed.

Lemma all_bytes_In :
  forall P s, all_bytes P s = true ->
    forall c, In c (list_ascii_of_string s) -> P c = true.
Proof.
  intros P s. induction s as [|x s IH]; simpl; intros H c Hin.
  - contradiction.
  - apply andb_prop in H. destruct H as [Hx Hs].
    destruct Hin as [<- | Hin]; [ exact Hx | now apply IH ].
Qed.

(** [filepath.Ext] returns an extension. *)
Lemma ext_scan_is_ext :
  forall r acc,
    all_bytes not_dot acc = true -> all_bytes not_sep acc = true ->
    is_ext (filepath.ext_scan r acc) = true.
Proof.
  induction r as [|c r IH]; simpl; intros acc Hd Hs.
  - reflexivity.
  - destruct (filepath.is_sep c) eqn:Hsep; [ reflexivity | ].
    destruct (Ascii.eqb c ".") eqn:Hdot.
    + simpl. now rewrite Hdot, Hd, Hs.
    + apply IH; simpl.
      * unfold not_dot at 1. now rewrite Hdot.
      * unfold not_sep at 1. now rewrite Hsep.
Qed.

Lemma Ext_is_ext : forall path, is_ext (filepath.Ext path) = true.
Proof. intro path. unfold filepath.Ext. now apply ext_scan_is_ext. Qed.

Lemma ext_scan_skip :
  forall l r acc,
    (forall c, In c l -> not_dot c = true /\ not_sep c = true) ->
    filepath.ext_scan (l ++ r)%list acc
    = filepath.ext_scan r (string_of_list_ascii (rev l) ++ acc).
Proof.
  induction l as [|c l IH]; intros r acc H.
  - reflexivity.
  - simpl. destruct (H c (or_introl eq_refl)) as [Hd Hs].
    unfold not_sep in Hs. apply negb_true_iff in Hs. rewrite Hs.
    unfold not_dot in Hd. apply negb_true_iff in Hd. rewrite Hd.
    rewrite IH by (intros c' Hc'; apply H; now right).
    rewrite string_of_list_ascii_app, append_assoc. reflexivity.
Qed.

(** [filepath.Ext] leaves an extension as it is. *)
Lemma Ext_of_ext : forall e, is_ext e = true -> filepath.Ext e = e.
Proof.
  intros [|c t] H.
  - reflexivity.
  - simpl in H. apply andb_prop in H. destruct H as [H Hs].
    apply andb_prop in H. destruct H as [Hc Hd].
    apply Ascii.eqb_eq in Hc. subst c.
    unfold filepath.Ext, filepath.rev_bytes. simpl list_ascii_of_string. simpl rev.
    rewrite ext_scan_skip.
    + rewrite rev_involutive, string_of_list_ascii_of_string. simpl.
      now rewrite append_nil_r.
    + intros c Hin. apply in_rev in Hin. split.
      * exact (all_bytes_In _ _ Hd c Hin).
      * exact (all_bytes_In _ _ Hs c Hin).
Qed.

Lemma Ext_idempotent : forall path, filepath.Ext (filepath.Ext path) = filepath.Ext path.
Proof. intro path. apply Ext_of_ext, Ext_is_ext. Qed.

Lemma is_ext_no_sep : forall e, is_ext e = true -> no_sep e = true.
Proof.
  intros [|c t] H; [ reflexivity | ].
  simpl in H. apply andb_prop in H. destruct H as [H Hs].
  apply andb_prop in H. destruct H as [Hc _]. apply Ascii.eqb_eq in Hc. subst c.
  simpl. now rewrite no_sep_all_bytes.
Qed.

Lemma Itoa_no_sep : forall n, no_sep (strconv.Itoa n) = true.
Proof.
  intro n. rewrite no_sep_all_bytes.
  exact (all_bytes_impl _ _ _ decimal_byte_not_sep (Itoa_decimal n)).
Qed.

(** A plain element stays plain when bytes other than separators follow. *)
Lemma plain_app :
  forall a x, plain a = true -> no_sep x = true -> plain (a ++ x) = true.
Proof.
  intros a x Ha Hx. unfold plain in *.
  repeat (apply andb_prop in Ha; destruct Ha as [Ha ?]).
  rewrite no_sep_app, Hx.
  match goal with H : no_sep a = true |- _ => rewrite H end.
  destruct a as [|c a]; [ discriminate | ].
  destruct a as [|c' a]; simpl in *.
  - destruct (Ascii.eqb c ".") eqn:E; [ discriminate | reflexivity ].
  - destruct (Ascii.eqb c ".") eqn:E; [ | reflexivity ].
    destruct a as [|c'' a]; simpl in *.
    + destruct (Ascii.eqb c' ".") eqn:E'; [ discriminate | reflexivity ].
    + destruct (Ascii.eqb c' "."); reflexivity.
Qed.

(** A string that starts with a decimal byte and holds no separator is
    plain. *)
Lemma decimal_plain :
  forall n x, no_sep x = true -> plain (strconv.Itoa n ++ x) = true.
Proof.
  intros n x Hx. unfold plain. rewrite no_sep_app, Itoa_no_sep, Hx.
  pose proof (Itoa_decimal n) as Hdec.
  destruct (Itoa_nonempty n) as [c [s E]]. rewrite E in *. simpl in Hdec |- *.
  apply andb_prop in Hdec. destruct Hdec as [Hc _].
  apply decimal_byte_not_dot in Hc. unfold not_dot in Hc.
  apply negb_true_iff in Hc. rewrite Hc. reflexivity.
Qed.

Lemma join_output : forall class, plain class = true ->
  filepath.Join ["output"; class] = "output/" ++ class.
Proof.
  intros class H. unfold filepath.Join. simpl String.eqb. cbv iota.
  change (String.concat "/" ["output"; class]) with ("output" ++ "/" ++ class).
  now rewrite Clean_two.
Qed.

Lemma join_output_elem : forall class e, plain class = true -> plain e = true ->
  filepath.Join ["output/" ++ class; e] = "output/" ++ class ++ "/" ++ e.
Proof.
  intros class e Hc He. unfold filepath.Join. simpl String.eqb. cbv iota.
  change (String.concat "/" ["output/" ++ class; e])
    with ("output" ++ "/" ++ class ++ "/" ++ e).
  now rewrite Clean_three.
Qed.

(** The value and the state [getOutputFileName] returns. *)
Lemma getOutputFileName_eq :
  forall (class : Class) (n : ClassCount) (path : string) (st : State),
    plain class = true ->
    getOutputFileName class n path st
    = Ok (output_name class n (filepath.Ext path))
         (set_dirs (dirs st ++ ["output/" ++ class]) st).
Proof.
  intros class n path st Hclass.
  unfold getOutputFileName, bind, createOutputDir, ret.
  rewrite join_output by exact Hclass.
  assert (He : plain (String.concat "_" [class; strconv.Itoa n] ++ filepath.Ext path) = true).
  { simpl String.concat. rewrite append_assoc. apply plain_app; [ exact Hclass | ].
    simpl. rewrite no_sep_app, Itoa_no_sep. simpl.
    apply is_ext_no_sep, Ext_is_ext. }
  rewrite join_output_elem by assumption.
  unfold output_name. simpl String.concat. rewrite !append_assoc. reflexivity.
Qed.

(** X9.  For a class that is a plain path element, [getOutputFileName]
    returns [output/<class>/<class>_<counter><ext>], where [<ext>] is the
    extension of its third argument, and records one call of [os.MkdirAll]
    on [output/<class>]; it changes nothing else and returns no error. *)
Theorem getOutputFileName_name :
  forall (class : Class) (n : ClassCount) (path : string) (st : State),
    plain class = true ->
    getOutputFileName class n path st
    = Ok (output_name class n (filepath.Ext path))
         (set_dirs (dirs st ++ ["output/" ++ class]) st).
Proof. exact getOutputFileName_eq. Qed.

Lemma getOutputFileName_name_witness :
  getOutputFileName KNIFE 7 "dataset/images/a.b/Knife.JPG" initial
  = Ok (output_name KNIFE 7 (filepath.Ext "dataset/images/a.b/Knife.JPG"))
       (set_dirs (dirs initial ++ ["output/" ++ KNIFE]) initial).
Proof.
  apply (getOutputFileName_name KNIFE 7 "dataset/images/a.b/Knife.JPG" initial).
  reflexivity.
Defined.

(** Two strings that agree split alike at their first byte that satisfies
    [P]. *)
Lemma split_at_first :
  forall (P : ascii -> bool) a1 a2 x y r1 r2,
    all_bytes (fun c => negb (P c)) a1 = true ->
    all_bytes (fun c => negb (P c)) a2 = true ->
    P x = true -> P y = true ->
    a1 ++ String x r1 = a2 ++ String y r2 ->
    a1 = a2 /\ String x r1 = String y r2.
Proof.
  intros P. induction a1 as [|c1 a1 IH]; intros [|c2 a2] x y r1 r2 H1 H2 Hx Hy H;
    simpl in *.
  - now split.
  - injection H as -> _. apply andb_prop in H2. destruct H2 as [H2 _].
    rewrite Hx in H2. discriminate.
  - injection H as -> _. apply andb_prop in H1. destruct H1 as [H1 _].
    rewrite Hy in H1. discriminate.
  - injection H as -> H.
    apply andb_prop in H1. destruct H1 as [_ H1].
    apply andb_prop in H2. destruct H2 as [_ H2].
    destruct (IH a2 x y r1 r2 H1 H2 Hx Hy H) as [-> E]. now split.
Qed.

Lemma ext_split :
  forall a1 a2 e1 e2,
    all_bytes not_dot a1 = true -> all_bytes not_dot a2 = true ->
    is_ext e1 = true -> is_ext e2 = true ->
    a1 ++ e1 = a2 ++ e2 -> a1 = a2 /\ e1 = e2.
Proof.
  intros a1 a2 [|x t1] [|y t2] H1 H2 He1 He2 H.
  - rewrite !append_nil_r in H. now split.
  - exfalso. rewrite append_nil_r in H. subst a1.
    rewrite all_bytes_app in H1. apply andb_prop in H1. destruct H1 as [_ H1].
    simpl in He2, H1. apply andb_prop in He2. destruct He2 as [He2 _].
    apply andb_prop in He2. destruct He2 as [He2 _].
    apply andb_prop in H1. destruct H1 as [H1 _].
    unfold not_dot in H1. rewrite He2 in H1. discriminate.
  - exfalso. rewrite append_nil_r in H. subst a2.
    rewrite all_bytes_app in H2. apply andb_prop in H2. destruct H2 as [_ H2].
    simpl in He1, H2. apply andb_prop in He1. destruct He1 as [He1 _].
    apply andb_prop in He1. destruct He1 as [He1 _].
    apply andb_prop in H2. destruct H2 as [H2 _].
    unfold not_dot in H2. rewrite He1 in H2. discriminate.
  - simpl in He1, He2.
    apply andb_prop in He1. destruct He1 as [He1 _].
    apply andb_prop in He1. destruct He1 as [He1 _].
    apply andb_prop in He2. destruct He2 as [He2 _].
    apply andb_prop in He2. destruct He2 as [He2 _].
    apply (split_at_first (fun c => Ascii.eqb c ".") a1 a2 x y t1 t2); assumption.
Qed.

Lemma Itoa_no_dot : forall n, all_bytes not_dot (strconv.Itoa n) = true.
Proof. intro n. exact (all_bytes_impl _ _ _ decimal_byte_not_dot (Itoa_decimal n)). Qed.

(** Equal output names have equal parts. *)
Lemma output_name_eq_inv :
  forall (c1 c2 : Class) (n1 n2 : ClassCount) (e1 e2 : string),
    plain c1 = true -> plain c2 = true ->
    is_ext e1 = true -> is_ext e2 = true ->
    output_name c1 n1 e1 = output_name c2 n2 e2 ->
    c1 = c2 /\ n1 = n2 /\ e1 = e2.
Proof.
  intros c1 c2 n1 n2 e1 e2 Hc1 Hc2 He1 He2 H.
  unfold output_name in H.
  apply (append_cancel_l "output/") in H.
  apply plain_no_sep in Hc1, Hc2. rewrite no_sep_all_bytes in Hc1, Hc2.
  simpl in H.
  destruct (split_at_first filepath.is_sep c1 c2 "/" "/" _ _ Hc1 Hc2 eq_refl eq_refl H)
    as [-> E].
  split; [ reflexivity | ].
  injection E as E. apply append_cancel_l in E. injection E as E.
  destruct (ext_split _ _ _ _ (Itoa_no_dot n1) (Itoa_no_dot n2) He1 He2 E) as [En Ee].
  split; [ now apply Itoa_inj | exact Ee ].
Qed.

(** X11.  Output names built from different classes or from different
    counter values are different, whatever the extensions. *)
Theorem output_name_inj :
  forall (c1 c2 : Class) (n1 n2 : ClassCount) (p1 p2 : string),
    plain c1 = true -> plain c2 = true ->
    c1 <> c2 \/ n1 <> n2 ->
    output_name c1 n1 (filepath.Ext p1) <> output_name c2 n2 (filepath.Ext p2).
Proof.
  intros c1 c2 n1 n2 p1 p2 H1 H2 Hne H.
  destruct (output_name_eq_inv c1 c2 n1 n2 _ _ H1 H2 (Ext_is_ext p1) (Ext_is_ext p2) H)
    as (Hc & Hn & _).
  destruct Hne as [Hne | Hne]; contradiction.
Qed.

Lemma output_name_inj_witness :
  output_name KNIFE 1 (filepath.Ext "a/x.jpg") <> output_name KNIFE 11 (filepath.Ext "b/y.jpg").
Proof.
  apply (output_name_inj KNIFE KNIFE 1 11 "a/x.jpg" "b/y.jpg");
    [ reflexivity | reflexivity | right; discriminate ].
Defined.

(** ** What the calls leave behind *)

(** What [copy] leaves behind: nothing with an error, or one file and one
    entry of [copiedImages]. *)
Lemma copy_cases :
  forall (env : Env) (src dst : string) (st : State),
    let r := copy env src dst st in
    same_counters st (state_of r)
    /\ ((error_of r <> None
         /\ files (state_of r) = files st
         /\ copiedImages (state_of r) = copiedImages st
         /\ (Stat env src <> Some true \/ Open_ok env src = false \/ Create_ok env dst = false))
        \/ (exists complete,
              files (state_of r) = (files st ++ [Copied src dst complete])%list
              /\ copiedImages (state_of r) = (copiedImages st ++ [src])%list
              /\ (error_of r = None <-> complete = true)
              /\ Stat env src = Some true)).
Proof.
  intros env src dst st r. subst r. unfold copy, same_counters.
  destruct (Stat env src) as [[|]|] eqn:Hstat; simpl.
  - destruct (Open_ok env src) eqn:Hopen; simpl.
    + destruct (Create_ok env dst) eqn:Hcreate; simpl.
      * split; [ destruct (Copy_ok env dst src); simpl; repeat split; intros []; reflexivity | ].
        right. exists (Copy_ok env dst src).
        destruct (Copy_ok env dst src); simpl; repeat split; congruence.
      * split; [ repeat split | left; repeat split; try discriminate; tauto ].
    + split; [ repeat split | left; repeat split; try discriminate; tauto ].
  - split; [ repeat split | left; repeat split; try discriminate ]. left. discriminate.
  - split; [ repeat split | left; repeat split; try discriminate ]. left. discriminate.
Qed.

(** X1.  A copy whose byte transfer fails is recorded all the same: [copy]
    returns the error of [io.Copy], the truncated destination stays, the
    source is in [copiedImages], and a sweep that follows adds no copy of that
    source. *)
Theorem incomplete_copy_not_retried :
  forall (env : Env) (src dst : string) (st : State) (es : list DirEntry),
    Stat env src = Some true ->
    Open_ok env src = true ->
    Create_ok env dst = true ->
    Copy_ok env dst src = false ->
    let r := copy env src dst st in
    error_of r = Some (ErrCopy src dst)
    /\ files (state_of r) = (files st ++ [Copied src dst false])%list
    /\ In src (copiedImages (state_of r))
    /\ filter (is_copy_of src)
         (files (state_of (walk_entries (scanImages_fn env) es (state_of r))))
       = filter (is_copy_of src) (files (state_of r)).
Proof.
  intros env src dst st es Hstat Hopen Hcreate Hcopy r. subst r.
  assert (E : copy env src dst st
              = Fail (ErrCopy src dst)
                  (set_copiedImages (copiedImages st ++ [src])
                     (set_files (files st ++ [Copied src dst false]) st))).
  { unfold copy. rewrite Hstat, Hopen, Hcreate, Hcopy. reflexivity. }
  rewrite E. cbn [error_of state_of].
  assert (Hin : In src (copiedImages
                          (set_copiedImages (copiedImages st ++ [src])
                             (set_files (files st ++ [Copied src dst false]) st)))).
  { cbn. apply in_or_app. right. now left. }
  repeat split; [ exact Hin | now apply sweep_skips_recorded ].
Qed.

(** The sample dataset on a disk where every byte transfer breaks off. *)
Lemma incomplete_copy_not_retried_witness :
  filter (is_copy_of "dataset/images/knife_1.jpg")
    (files (state_of
       (walk_entries (scanImages_fn short_copy_env) knife_images
          (state_of (copy short_copy_env "dataset/images/knife_1.jpg" "output/yolo/0.jpg"
                       initial)))))
  = filter (is_copy_of "dataset/images/knife_1.jpg")
      (files (state_of (copy short_copy_env "dataset/images/knife_1.jpg" "output/yolo/0.jpg"
                          initial))).
Proof.
  apply (incomplete_copy_not_retried short_copy_env
           "dataset/images/knife_1.jpg" "output/yolo/0.jpg" initial knife_images);
    reflexivity.
Defined.

(** The counter [getClassFromPath] returns is that of the class it returns,
    and the class is one of the six. *)
Lemma getClassFromPath_class :
  forall (env : Env) (path : string),
    let c := fst (getClassFromPath env path) in
    snd (getClassFromPath env path) = counter_of c
    /\ In c [GUN; KNIFE; WRENCH; FORK; SCREWDRIVER; UNKNOWN]
    /\ plain c = true.
Proof.
  intros env path c. subst c. rewrite getClassFromPath_unfold.
  keyword_split env path; simpl; (split; [ reflexivity | split; [ tauto | reflexivity ] ]).
Qed.

(** X2.  [getClassFromPath] returns a class together with the address of the
    counter of that same class: the pair is one of six. *)
Theorem getClassFromPath_pairs :
  forall (env : Env) (path : string),
    In (getClassFromPath env path)
       [ (GUN, AddrGunCount); (KNIFE, AddrKnifeCount); (WRENCH, AddrWrenchCount);
         (FORK, AddrForkCount); (SCREWDRIVER, AddrScrewdriverCount);
         (UNKNOWN, AddrUnknownCount) ].
Proof.
  intros env path. rewrite getClassFromPath_unfold.
  keyword_split env path; simpl; tauto.
Qed.

(** ** More on the resolver *)

Lemma walk_sound :
  forall baseName es found,
    fold_left (walker baseName) es found = found
    \/ exists d, In d es /\ is_match baseName d = true
                 /\ fold_left (walker baseName) es found = d_path d.
Proof.
  intros baseName es. induction es as [|d es IH]; intro found; simpl.
  - now left.
  - destruct (IH (walker baseName found d)) as [E | [d' [Hin [Hm E]]]].
    + rewrite E. destruct (is_match baseName d) eqn:Hd.
      * right. exists d. rewrite walker_match by exact Hd. auto.
      * left. now apply walker_no_match.
    + right. exists d'. auto.
Qed.

(** A walk that meets a match ends with the path of a match. *)
Lemma walk_complete :
  forall baseName es found,
    existsb (is_match baseName) es = true ->
    exists d, In d es /\ is_match baseName d = true
              /\ fold_left (walker baseName) es found = d_path d.
Proof.
  intros baseName es. induction es as [|d es IH]; intros found Hex; simpl in *.
  - discriminate.
  - destruct (existsb (is_match baseName) es) eqn:Hrest.
    + destruct (IH (walker baseName found d) eq_refl) as [d' [Hin [Hm E]]].
      exists d'. auto.
    + rewrite orb_false_r in Hex. exists d.
      rewrite walk_no_match.
      * rewrite walker_match by exact Hex. auto.
      * intros d' Hd'. destruct (is_match baseName d') eqn:E; [ | reflexivity ].
        assert (existsb (is_match baseName) es = true)
          by (apply existsb_exists; now exists d').
        congruence.
Qed.

Lemma existsb_false_all :
  forall (A : Type) (f : A -> bool) (l : list A),
    existsb f l = false -> forall x, In x l -> f x = false.
Proof.
  intros A f l H x Hx. destruct (f x) eqn:E; [ | reflexivity ].
  assert (existsb f l = true) by (apply existsb_exists; now exists x). congruence.
Qed.

(** X5.  The resolver returns the empty string or the path of an entry of
    one of the two walks that is no directory and is named as the recorded
    path's base name; and when no walk lists an empty path, it returns the
    empty string exactly when neither walk has such an entry. *)
Theorem findCorrespondingFile_sound :
  forall (env : Env) (p : string),
    let found := findCorrespondingFile env p in
    let listed d := In d (walk env "dataset/images") \/ In d (walk env "dataset/allimages") in
    (found = ""
     \/ exists d, listed d /\ d_IsDir d = false /\ d_Name d = wanted p /\ found = d_path d)
    /\ ((forall d, listed d -> d_path d <> "") ->
        (found = "" <-> forall d, listed d -> is_match (wanted p) d = false)).
Proof.
  intros env p found listed. subst found listed.
  unfold findCorrespondingFile. fold (wanted p).
  assert (Hm : forall d, is_match (wanted p) d = true ->
                         d_IsDir d = false /\ d_Name d = wanted p).
  { intros d H. unfold is_match in H. apply andb_prop in H. destruct H as [H1 H2].
    apply negb_true_iff in H1. apply String.eqb_eq in H2. now split. }
  destruct (existsb (is_match (wanted p)) (walk env "dataset/images")) eqn:Ex1.
  - destruct (walk_complete _ _ "" Ex1) as [d1 [Hin1 [Hm1 E1]]]. rewrite E1.
    split.
    + destruct (String.length (d_path d1) =? 0)%nat eqn:Hlen.
      * destruct (walk_sound (wanted p) (walk env "dataset/allimages") (d_path d1))
          as [E2 | [d2 [Hin2 [Hm2 E2]]]]; rewrite E2.
        -- right. exists d1. destruct (Hm d1 Hm1). auto.
        -- right. exists d2. destruct (Hm d2 Hm2). auto.
      * right. exists d1. destruct (Hm d1 Hm1). auto.
    + intros Hpaths.
      assert (Hne : d_path d1 <> "") by (apply Hpaths; now left).
      destruct (d_path d1) as [|c s] eqn:Ep; [ now elim Hne | ]. simpl.
      split; [ discriminate | ].
      intros Hnone. rewrite (Hnone d1 (or_introl Hin1)) in Hm1. discriminate.
  - pose proof (existsb_false_all _ _ _ Ex1) as Hnone1.
    rewrite (walk_no_match (wanted p) (walk env "dataset/images")) by exact Hnone1.
    simpl.
    destruct (existsb (is_match (wanted p)) (walk env "dataset/allimages")) eqn:Ex2.
    + destruct (walk_complete _ _ "" Ex2) as [d2 [Hin2 [Hm2 E2]]]. rewrite E2.
      split.
      * right. exists d2. destruct (Hm d2 Hm2). auto.
      * intros Hpaths. split.
        -- intro E. exfalso. apply (Hpaths d2); auto.
        -- intros Hnone. rewrite (Hnone d2 (or_intror Hin2)) in Hm2. discriminate.
    + pose proof (existsb_false_all _ _ _ Ex2) as Hnone2.
      rewrite (walk_no_match (wanted p) (walk env "dataset/allimages")) by exact Hnone2.
      split; [ now left | ].
      intros _. split; [ | reflexivity ].
      intros _ d [Hd | Hd]; auto.
Qed.

Lemma findCorrespondingFile_sound_witness :
  findCorrespondingFile twin_env "C:\labels\x.jpg" = "" <->
  forall d,
    In d (walk twin_env "dataset/images") \/ In d (walk twin_env "dataset/allimages") ->
    is_match (wanted "C:\labels\x.jpg") d = false.
Proof.
  apply (proj2 (findCorrespondingFile_sound twin_env "C:\labels\x.jpg")).
  intros d [Hd | Hd]; simpl in Hd;
    repeat (destruct Hd as [<- | Hd]; [ discriminate | ]); contradiction.
Defined.

(** ** Entries the annotation pass passes over or stops at *)

(** X7.  An annotation file that opens and whose image the resolver does not
    find is passed over in either mode: the callback returns nil and the
    state is unchanged. *)
Theorem unresolved_image_skipped :
  forall (env : Env) (yolo : bool) (d : DirEntry) (st : State),
    filepath.Ext (d_Name d) = ".xml" ->
    Open_ok env (d_path d) = true ->
    findCorrespondingFile env (Path (Decode env (d_path d) labelledXML_zero)) = "" ->
    scanAllLabelled_fn env yolo (d_path d) d st = Ok tt st.
Proof.
  intros env yolo d st Hext Hopen Hfound.
  unfold scanAllLabelled_fn, readLabelled. rewrite Hext, Hopen. simpl.
  destruct (getClassFromPath env (d_path d)) as [class classCount].
  destruct (if String.eqb class UNKNOWN then _ else _) as [class' classCount'].
  unfold bind, checked. simpl. rewrite Hfound. reflexivity.
Qed.

Lemma unresolved_image_skipped_witness :
  scanAllLabelled_fn undecoded_env false "dataset/labels/knife_1.xml"
    (a_file "dataset/labels/knife_1.xml" "knife_1.xml") initial = Ok tt initial.
Proof.
  apply (unresolved_image_skipped undecoded_env false
           (a_file "dataset/labels/knife_1.xml" "knife_1.xml") initial);
    vm_compute; reflexivity.
Defined.

Lemma walk_entries_app :
  forall fn pre post st,
    walk_entries fn (pre ++ post)%list st =
      match walk_entries fn pre st with
      | Ok _ st' => walk_entries fn post st'
      | Fail e st' => Fail e st'
      end.
Proof.
  intros fn pre. induction pre as [|d pre IH]; intros post st; simpl.
  - reflexivity.
  - destruct (fn (d_path d) d st) as [[] st' | e st']; [ apply IH | reflexivity ].
Qed.

(** X8.  An annotation file that cannot be opened ends the run there: the
    pass returns the error of [os.Open] with the state the earlier entries
    left, the entries behind it are not visited, and the sweep does not
    run. *)
Theorem unopenable_annotation_aborts :
  forall (env : Env) (yolo : bool) (pre post : list DirEntry) (d : DirEntry) (st st1 : State),
    walk env "dataset" = (pre ++ d :: post)%list ->
    walk_entries (scanAllLabelled_fn env yolo) pre st = Ok tt st1 ->
    filepath.Ext (d_Name d) = ".xml" ->
    Open_ok env (d_path d) = false ->
    scanAllLabelled env yolo st = Fail (ErrOpen (d_path d)) st1
    /\ (scanAllLabelled env yolo ;;; scanImages env) st = Fail (ErrOpen (d_path d)) st1.
Proof.
  intros env yolo pre post d st st1 Hwalk Hpre Hext Hopen.
  assert (H : scanAllLabelled env yolo st = Fail (ErrOpen (d_path d)) st1).
  { unfold scanAllLabelled. rewrite Hwalk, walk_entries_app, Hpre. simpl.
    unfold scanAllLabelled_fn, readLabelled. rewrite Hext, Hopen. reflexivity. }
  split; [ exact H | ]. unfold bind. now rewrite H.
Qed.

Lemma unopenable_annotation_aborts_witness :
  scanAllLabelled locked_env true initial
  = Fail (ErrOpen "dataset/labels/knife_1.xml") initial
  /\ (scanAllLabelled locked_env true ;;; scanImages locked_env) initial
     = Fail (ErrOpen "dataset/labels/knife_1.xml") initial.
Proof.
  apply (unopenable_annotation_aborts locked_env true
           [ a_dir "dataset" "dataset";
             a_dir "dataset/images" "images";
             a_file "dataset/images/knife_1.jpg" "knife_1.jpg";
             a_dir "dataset/labels" "labels" ]
           []
           (a_file "dataset/labels/knife_1.xml" "knife_1.xml") initial initial);
    reflexivity.
Defined.

(** ** The two branches and the callback of the sweep *)

Lemma yolo_file_name :
  forall n suffix, no_sep suffix = true ->
    filepath.Join [filepath.Join ["output"; "yolo"]; strconv.Itoa n ++ suffix]
    = yolo_name n suffix.
Proof.
  intros n suffix H.
  change (filepath.Join ["output"; "yolo"]) with ("output/" ++ "yolo").
  rewrite join_output_elem; [ reflexivity | reflexivity | now apply decimal_plain ].
Qed.

(** The outcomes of the yolo branch. *)
Lemma writeYolo_cases :
  forall (env : Env) (data : labelledXML) (classIndex : ClassIndex) (foundImage : string)
         (st : State),
    let n := TotalCount st in
    match writeYolo env data classIndex foundImage st with
    | Fail _ st' =>
        files st' = files st /\ copiedImages st' = copiedImages st
        /\ TotalCount st' = n /\ (forall p, load p st' = load p st)
    | Ok _ st' =>
        TotalCount st' = int_add n 1
        /\ (forall p, load p st' = load p st)
        /\ exists line,
             (files st' = (files st ++ [Written (yolo_name n ".txt") line])%list
              /\ copiedImages st' = copiedImages st)
             \/ (exists complete,
                   files st' =
                     (files st ++ [Written (yolo_name n ".txt") line;
                                   Copied foundImage (yolo_name n ".jpg") complete])%list
                   /\ copiedImages st' = (copiedImages st ++ [foundImage])%list)
    end.
Proof.
  intros env data classIndex foundImage st n. subst n.
  unfold writeYolo, bind, createOutputDir, get.
  cbn [TotalCount set_dirs].
  rewrite !yolo_file_name by reflexivity.
  destruct (strconv.Atoi (Xmax (Bndbox (Object data)))) as [xMax e1].
  destruct (strconv.Atoi (Xmin (Bndbox (Object data)))) as [xMin e2].
  destruct (strconv.Atoi (Ymax (Bndbox (Object data)))) as [yMax e3].
  destruct (strconv.Atoi (Ymin (Bndbox (Object data)))) as [yMin e4].
  destruct (strconv.Atoi (Width (Size data))) as [width e5].
  destruct (strconv.Atoi (Height (Size data))) as [height [e6|]];
    unfold bind, checked; cbn [snd fst].
  - cbn. repeat split.
  - unfold WriteFile. destruct (WriteFile_ok env _).
    + unfold ignore, modify.
      pose proof (copy_cases env foundImage (yolo_name (TotalCount st) ".jpg")
                    (set_files
                       (files (set_dirs ((dirs st ++ ["output/yolo"]) ++ ["output/yolo"])%list st)
                          ++ [Written (yolo_name (TotalCount st) ".txt")
                                (yoloLine classIndex xMin yMin xMax yMax width height)])%list
                       (set_dirs ((dirs st ++ ["output/yolo"]) ++ ["output/yolo"])%list st)))
        as [[Hload [Htotal _]] Hcases].
      change (filepath.Join ["output"; "yolo"]) with "output/yolo".
      destruct (copy env foundImage _ _) as [[] st' | e st']; cbn [state_of error_of] in *;
        (split; [ cbn in Htotal |- *; now rewrite Htotal | ]);
        (split; [ intro p; specialize (Hload p); destruct p; cbn in Hload |- *; exact Hload | ]);
        exists (yoloLine classIndex xMin yMin xMax yMax width height);
        (destruct Hcases as [(_ & Hf & Hc & _) | [complete (Hf & Hc & _)]];
         [ left | right; exists complete ]);
        cbn in Hf, Hc |- *; rewrite Hf, Hc, <- ?app_assoc; split; reflexivity.
    + cbn. repeat split.
Qed.

(** X14.  The yolo branch either returns an error, having written nothing
    and left [TotalCount] alone, or returns nil with [TotalCount] moved by
    one, the class counters untouched, the label written as
    [output/yolo/<n>.txt] and, when [copy] got as far as creating its
    destination, the image copied to [output/yolo/<n>.jpg] and recorded, [n]
    being the value of [TotalCount] before the call. *)
Theorem writeYolo_effect :
  forall (env : Env) (data : labelledXML) (classIndex : ClassIndex) (foundImage : string)
         (st : State),
    let n := TotalCount st in
    match writeYolo env data classIndex foundImage st with
    | Fail _ st' =>
        files st' = files st /\ copiedImages st' = copiedImages st
        /\ TotalCount st' = n /\ (forall p, load p st' = load p st)
    | Ok _ st' =>
        TotalCount st' = int_add n 1
        /\ (forall p, load p st' = load p st)
        /\ exists line,
             (files st' = (files st ++ [Written (yolo_name n ".txt") line])%list
              /\ copiedImages st' = copiedImages st)
             \/ (exists complete,
                   files st' =
                     (files st ++ [Written (yolo_name n ".txt") line;
                                   Copied foundImage (yolo_name n ".jpg") complete])%list
                   /\ copiedImages st' = (copiedImages st ++ [foundImage])%list)
    end.
Proof. exact writeYolo_cases. Qed.

Lemma CounterRef_eq_dec : forall p q : CounterRef, {p = q} + {p <> q}.
Proof. decide equality. Defined.

Lemma load_store_same : forall p v st, load p (store p v st) = v.
Proof. intros [] v st; reflexivity. Qed.

Lemma load_store_other : forall p q v st, q <> p -> load q (store p v st) = load q st.
Proof. intros [] [] v st H; try reflexivity; now elim H. Qed.

(** The outcomes of the rewrite branch. *)
Lemma rewriteAnnotation_cases :
  forall (env : Env) (path : string) (data : labelledXML) (class : Class)
         (classCount : CounterRef) (foundImage : string) (st : State),
    plain class = true ->
    let n := load classCount st in
    match rewriteAnnotation env path data class classCount foundImage st with
    | Fail _ st' =>
        files st' = files st /\ copiedImages st' = copiedImages st
        /\ TotalCount st' = TotalCount st /\ (forall p, load p st' = load p st)
    | Ok _ st' =>
        load classCount st' = int_add n 1
        /\ (forall p, p <> classCount -> load p st' = load p st)
        /\ TotalCount st' = TotalCount st
        /\ exists b,
             (files st' =
                (files st ++ [Written (output_name class n (filepath.Ext path)) b])%list
              /\ copiedImages st' = copiedImages st)
             \/ (exists complete,
                   files st' =
                     (files st
                      ++ [Written (output_name class n (filepath.Ext path)) b;
                          Copied foundImage (output_name class n (filepath.Ext foundImage))
                            complete])%list
                   /\ copiedImages st' = (copiedImages st ++ [foundImage])%list)
    end.
Proof.
  intros env path data class classCount foundImage st Hclass n. subst n.
  unfold rewriteAnnotation, bind, get.
  rewrite getOutputFileName_eq by exact Hclass.
  rewrite getOutputFileName_eq by exact Hclass.
  rewrite !Ext_idempotent.
  assert (Hl : load classCount (set_dirs (dirs st ++ [("output/" ++ class)%string])%list st)
               = load classCount st) by (destruct classCount; reflexivity).
  rewrite Hl. clear Hl.
  set (st2 := set_dirs _ (set_dirs _ st)).
  assert (H2 : files st2 = files st /\ copiedImages st2 = copiedImages st
               /\ TotalCount st2 = TotalCount st /\ (forall p, load p st2 = load p st)).
  { subst st2. repeat split. }
  destruct H2 as (H2f & H2c & H2t & H2l).
  unfold checked at 1.
  destruct (Rel env _ _) as [relativeImagePath [e|]]; cbn [fst snd].
  { now repeat split. }
  destruct (MarshalIndent env _) as [b [e|]]; unfold bind, checked; cbn [fst snd].
  { now repeat split. }
  unfold WriteFile. destruct (WriteFile_ok env _).
  2:{ now repeat split. }
  unfold ignore, modify.
  set (b' := strings.ReplaceAll (strings.ReplaceAll b "&#xA;" "") "&#x9;" "").
  set (st3 := set_files _ st2).
  pose proof (copy_cases env foundImage
                (output_name class (load classCount st) (filepath.Ext foundImage)) st3)
    as [[Hload [Htotal _]] Hcases].
  assert (H3 : files st3 = (files st
                 ++ [Written (output_name class (load classCount st) (filepath.Ext path)) b'])%list
               /\ copiedImages st3 = copiedImages st
               /\ TotalCount st3 = TotalCount st /\ (forall p, load p st3 = load p st)).
  { subst st3 st2. repeat split. }
  destruct H3 as (H3f & H3c & H3t & H3l).
  destruct (copy env foundImage _ st3) as [[] st' | e st']; cbn [state_of error_of] in *.
  - split; [ rewrite load_store_same, Hload, H3l; reflexivity | ].
    split; [ intros p Hp; rewrite load_store_other by exact Hp; now rewrite Hload, H3l | ].
    split; [ destruct classCount; cbn; now rewrite Htotal, H3t | ].
    exists b'.
    destruct Hcases as [(_ & Hf & Hc & _) | [complete (Hf & Hc & _)]];
      [ left | right; exists complete ];
      (split; [ destruct classCount; cbn; rewrite Hf, H3f, <- ?app_assoc; reflexivity
              | destruct classCount; cbn; rewrite Hc, H3c; reflexivity ]).
  - split; [ rewrite load_store_same, Hload, H3l; reflexivity | ].
    split; [ intros p Hp; rewrite load_store_other by exact Hp; now rewrite Hload, H3l | ].
    split; [ destruct classCount; cbn; now rewrite Htotal, H3t | ].
    exists b'.
    destruct Hcases as [(_ & Hf & Hc & _) | [complete (Hf & Hc & _)]];
      [ left | right; exists complete ];
      (split; [ destruct classCount; cbn; rewrite Hf, H3f, <- ?app_assoc; reflexivity
              | destruct classCount; cbn; rewrite Hc, H3c; reflexivity ]).
Qed.

(** X12.  For a class that is a plain path element, the rewrite branch
    either returns an error, having written nothing and moved no counter, or
    returns nil with the class counter moved by one, the other counters
    untouched, the annotation written as [output/<class>/<class>_<n>] with the
    extension of the annotation file and, when [copy] got as far as creating
    its destination, the image copied under the same [<class>_<n>] with its
    own extension and recorded. *)
Theorem rewriteAnnotation_effect :
  forall (env : Env) (path : string) (data : labelledXML) (class : Class)
         (classCount : CounterRef) (foundImage : string) (st : State),
    plain class = true ->
    let n := load classCount st in
    match rewriteAnnotation env path data class classCount foundImage st with
    | Fail _ st' =>
        files st' = files st /\ copiedImages st' = copiedImages st
        /\ TotalCount st' = TotalCount st /\ (forall p, load p st' = load p st)
    | Ok _ st' =>
        load classCount st' = int_add n 1
        /\ (forall p, p <> classCount -> load p st' = load p st)
        /\ TotalCount st' = TotalCount st
        /\ exists b,
             (files st' =
                (files st ++ [Written (output_name class n (filepath.Ext path)) b])%list
              /\ copiedImages st' = copiedImages st)
             \/ (exists complete,
                   files st' =
                     (files st
                      ++ [Written (output_name class n (filepath.Ext path)) b;
                          Copied foundImage (output_name class n (filepath.Ext foundImage))
                            complete])%list
                   /\ copiedImages st' = (copiedImages st ++ [foundImage])%list)
    end.
Proof. exact rewriteAnnotation_cases. Qed.

Lemma rewriteAnnotation_effect_witness :
  match
    rewriteAnnotation knife_env "dataset/labels/knife_1.xml" (box_annotation "50") KNIFE
      AddrKnifeCount "dataset/images/knife_1.jpg" initial
  with
  | Fail _ st' =>
      files st' = files initial /\ copiedImages st' = copiedImages initial
      /\ TotalCount st' = TotalCount initial /\ (forall p, load p st' = load p initial)
  | Ok _ st' =>
      load AddrKnifeCount st' = int_add (load AddrKnifeCount initial) 1
      /\ (forall p, p <> AddrKnifeCount -> load p st' = load p initial)
      /\ TotalCount st' = TotalCount initial
      /\ exists b,
           (files st' =
              (files initial
               ++ [Written (output_name KNIFE (load AddrKnifeCount initial)
                              (filepath.Ext "dataset/labels/knife_1.xml")) b])%list
            /\ copiedImages st' = copiedImages initial)
           \/ (exists complete,
                 files st' =
                   (files initial
                    ++ [Written (output_name KNIFE (load AddrKnifeCount initial)
                                   (filepath.Ext "dataset/labels/knife_1.xml")) b;
                        Copied "dataset/images/knife_1.jpg"
                          (output_name KNIFE (load AddrKnifeCount initial)
                             (filepath.Ext "dataset/images/knife_1.jpg"))
                          complete])%list
                 /\ copiedImages st' = (copiedImages initial ++ ["dataset/images/knife_1.jpg"])%list)
  end.
Proof.
  apply (rewriteAnnotation_effect knife_env "dataset/labels/knife_1.xml" (box_annotation "50")
           KNIFE AddrKnifeCount "dataset/images/knife_1.jpg" initial).
  reflexivity.
Defined.

(** The outcomes of the callback of the sweep. *)
Lemma scanImages_fn_cases :
  forall (env : Env) (path : string) (d : DirEntry) (st : State),
    let class := fst (getClassFromPath env path) in
    let classCount := snd (getClassFromPath env path) in
    let n := load classCount st in
    exists st',
      scanImages_fn env path d st = Ok tt st'
      /\ TotalCount st' = TotalCount st
      /\ ((In path (copiedImages st) /\ st' = st)
          \/ (~ In path (copiedImages st)
              /\ load classCount st' = int_add n 1
              /\ (forall p, p <> classCount -> load p st' = load p st)
              /\ ((files st' = files st /\ copiedImages st' = copiedImages st)
                  \/ exists complete,
                       files st' =
                         (files st
                          ++ [Copied path (output_name class n (filepath.Ext path)) complete])%list
                       /\ copiedImages st' = (copiedImages st ++ [path])%list))).
Proof.
  intros env path d st class classCount n. subst class classCount n.
  unfold scanImages_fn.
  destruct (slices_Contains (copiedImages st) path) eqn:Hin; cbn [negb].
  - exists st. split; [ reflexivity | split; [ reflexivity | left ] ].
    split; [ now apply slices_Contains_In | reflexivity ].
  - assert (Hnot : ~ In path (copiedImages st)).
    { intro H. apply slices_Contains_In in H. congruence. }
    destruct (getClassFromPath_class env path) as (_ & _ & Hplain).
    destruct (getClassFromPath env path) as [class classCount]. cbn [fst snd] in *.
    unfold bind. rewrite getOutputFileName_eq by exact Hplain.
    rewrite Ext_idempotent. unfold ignore, modify.
    set (st2 := set_dirs _ st).
    pose proof (copy_cases env path
                  (output_name class (load classCount st) (filepath.Ext path)) st2)
      as [[Hload [Htotal _]] Hcases].
    assert (H2 : files st2 = files st /\ copiedImages st2 = copiedImages st
                 /\ TotalCount st2 = TotalCount st /\ (forall p, load p st2 = load p st)).
    { subst st2. repeat split. }
    destruct H2 as (H2f & H2c & H2t & H2l).
    destruct (copy env path _ st2) as [[] st' | e st']; cbn [state_of error_of] in *;
      (eexists; split; [ reflexivity | ]);
      (split; [ destruct classCount; cbn; now rewrite Htotal, H2t | ]);
      right; (split; [ exact Hnot | ]);
      (split; [ rewrite load_store_same, Hload, H2l; reflexivity | ]);
      (split; [ intros p Hp; rewrite load_store_other by exact Hp; now rewrite Hload, H2l | ]);
      (destruct Hcases as [(_ & Hf & Hc & _) | [complete (Hf & Hc & _)]];
       [ left | right; exists complete ]);
      (split; [ destruct classCount; cbn; rewrite Hf, H2f; reflexivity
              | destruct classCount; cbn; rewrite Hc, H2c; reflexivity ]).
Qed.

(** X15.  The callback of the sweep returns nil at every entry and never
    moves [TotalCount].  An entry whose path is in [copiedImages] changes
    nothing.  Any other entry moves the counter of the class of its path by
    one and no other counter, and either writes nothing or copies the entry
    to [output/<class>/<class>_<n>] with its extension and records it, [n]
    being the counter before the call. *)
Theorem scanImages_fn_effect :
  forall (env : Env) (path : string) (d : DirEntry) (st : State),
    let class := fst (getClassFromPath env path) in
    let classCount := snd (getClassFromPath env path) in
    let n := load classCount st in
    exists st',
      scanImages_fn env path d st = Ok tt st'
      /\ TotalCount st' = TotalCount st
      /\ ((In path (copiedImages st) /\ st' = st)
          \/ (~ In path (copiedImages st)
              /\ load classCount st' = int_add n 1
              /\ (forall p, p <> classCount -> load p st' = load p st)
              /\ ((files st' = files st /\ copiedImages st' = copiedImages st)
                  \/ exists complete,
                       files st' =
                         (files st
                          ++ [Copied path (output_name class n (filepath.Ext path)) complete])%list
                       /\ copiedImages st' = (copiedImages st ++ [path])%list))).
Proof. exact scanImages_fn_cases. Qed.

(** What the callback of the annotation pass amounts to at an entry. *)
Lemma scanAllLabelled_fn_cases :
  forall (env : Env) (yolo : bool) (path : string) (d : DirEntry) (st : State),
    scanAllLabelled_fn env yolo path d st = Ok tt st
    \/ (exists e, scanAllLabelled_fn env yolo path d st = Fail e st)
    \/ (yolo = false
        /\ exists data class classCount foundImage,
             plain class = true
             /\ scanAllLabelled_fn env yolo path d st
                = rewriteAnnotation env path data class classCount foundImage st)
    \/ (yolo = true
        /\ exists data classIndex foundImage,
             scanAllLabelled_fn env yolo path d st
             = writeYolo env data classIndex foundImage st).
Proof.
  intros env yolo path d st. unfold scanAllLabelled_fn.
  destruct (String.eqb (filepath.Ext (d_Name d)) ".xml"); [ | now left ].
  unfold readLabelled. destruct (Open_ok env path); cbn [negb].
  2:{ right. left. eexists. reflexivity. }
  set (data := Decode env path labelledXML_zero).
  destruct (getClassFromPath_class env path) as (_ & _ & Hp1).
  destruct (getClassFromPath_class env (Path data)) as (_ & _ & Hp2).
  destruct (getClassFromPath env path) as [class classCount].
  destruct (getClassFromPath env (Path data)) as [class2 classCount2].
  cbn [fst snd] in *.
  assert (Hplain : plain (fst (if String.eqb class UNKNOWN then (class2, classCount2)
                               else (class, classCount))) = true)
    by (destruct (String.eqb class UNKNOWN); assumption).
  destruct (if String.eqb class UNKNOWN then (class2, classCount2) else (class, classCount))
    as [class' classCount']. cbn [fst] in Hplain.
  unfold bind, checked. cbn [fst snd].
  destruct (negb (String.length (findCorrespondingFile env (Path data)) =? 0)%nat);
    [ | now left ].
  destruct yolo; cbn [negb].
  - right. right. right. split; [ reflexivity | ]. do 3 eexists. reflexivity.
  - right. right. left. split; [ reflexivity | ]. do 4 eexists. split; [ exact Hplain | reflexivity ].
Qed.

(** ** Invariants of the passes *)

Section PassInvariant.

Variable env : Env.
Variable I : State -> Prop.

Lemma keeps_annotation_pass :
  forall yolo : bool,
    (yolo = true ->
     forall data classIndex foundImage, keeps I (writeYolo env data classIndex foundImage)) ->
    (yolo = false ->
     forall path data class classCount foundImage,
       plain class = true ->
       keeps I (rewriteAnnotation env path data class classCount foundImage)) ->
    keeps I (scanAllLabelled env yolo).
Proof.
  intros yolo Hyolo Hrewrite. unfold scanAllLabelled.
  apply keeps_walk_entries. intros d _ st HI.
  destruct (scanAllLabelled_fn_cases env yolo (d_path d) d st)
    as [E | [[e E] | [[Hy (data & class & cc & img & Hplain & E)]
                     | [Hy (data & idx & img & E)]]]];
    rewrite E.
  - exact HI.
  - exact HI.
  - now apply Hrewrite.
  - now apply Hyolo.
Qed.

Lemma keeps_sweep :
  (forall path d, keeps I (scanImages_fn env path d)) -> keeps I (scanImages env).
Proof.
  intro H. unfold scanImages. apply keeps_walk_entries. intros d _. apply H.
Qed.

End PassInvariant.

Lemma yolo_pass_class_counters :
  forall (env : Env) (st : State) (p : CounterRef),
    load p (state_of (scanAllLabelled env true st)) = load p st.
Proof.
  intros env st.
  apply (keeps_annotation_pass env (fun s => forall p, load p s = load p st) true).
  - intros _ data idx img s Hs p.
    pose proof (writeYolo_cases env data idx img s) as H.
    destruct (writeYolo env data idx img s) as [[] s' | e s']; cbn [state_of].
    + destruct H as (_ & Hl & _). now rewrite Hl.
    + destruct H as (_ & _ & _ & Hl). now rewrite Hl.
  - discriminate.
  - reflexivity.
Qed.

(** X17.  The yolo pass never moves a class counter; the rewrite pass and
    the sweep never move [TotalCount]. *)
Theorem passes_leave_other_counters :
  forall (env : Env) (st : State),
    (forall p, load p (state_of (scanAllLabelled env true st)) = load p st)
    /\ TotalCount (state_of (scanAllLabelled env false st)) = TotalCount st
    /\ TotalCount (state_of (scanImages env st)) = TotalCount st.
Proof.
  intros env st. repeat split.
  - apply yolo_pass_class_counters.
  - apply (keeps_annotation_pass env (fun s => TotalCount s = TotalCount st) false).
    + discriminate.
    + intros _ path data class cc img Hplain s Hs.
      pose proof (rewriteAnnotation_cases env path data class cc img s Hplain) as H.
      destruct (rewriteAnnotation env path data class cc img s) as [[] s' | e s'];
        cbn [state_of].
      * destruct H as (_ & _ & Ht & _). now rewrite Ht.
      * destruct H as (_ & _ & Ht & _). now rewrite Ht.
    + reflexivity.
  - apply (keeps_sweep env (fun s => TotalCount s = TotalCount st)).
    + intros path d s Hs.
      destruct (scanImages_fn_cases env path d s) as [s' (E & Ht & _)].
      rewrite E. cbn. now rewrite Ht.
    + reflexivity.
Qed.

Lemma srcs_of_app : forall a b, srcs_of (a ++ b) = (srcs_of a ++ srcs_of b)%list.
Proof. intros a b. unfold srcs_of. apply flat_map_app. Qed.

(** X18.  After a run, in either mode, [copiedImages] is the list of the
    sources of the copies made, in the order they were made: every copy is
    recorded and every record has its copy. *)
Theorem copiedImages_mirrors_copies :
  forall (env : Env) (yolo : bool),
    let st := state_of ((scanAllLabelled env yolo ;;; scanImages env) initial) in
    copiedImages st = srcs_of (files st).
Proof.
  intros env yolo st. subst st.
  set (I := fun s : State => copiedImages s = srcs_of (files s)).
  change (I (state_of ((scanAllLabelled env yolo ;;; scanImages env) initial))).
  apply (keeps_bind I); [ | | reflexivity ].
  - apply keeps_annotation_pass.
    + intros _ data idx img s Hs.
      pose proof (writeYolo_cases env data idx img s) as H.
      destruct (writeYolo env data idx img s) as [[] s' | e s']; cbn [state_of]; unfold I in *.
      * destruct H as (_ & _ & line & [[Hf Hc] | [c [Hf Hc]]]);
          rewrite Hf, Hc, srcs_of_app, Hs; cbn; now rewrite ?app_nil_r.
      * destruct H as (Hf & Hc & _). now rewrite Hf, Hc.
    + intros _ path data class cc img Hplain s Hs.
      pose proof (rewriteAnnotation_cases env path data class cc img s Hplain) as H.
      destruct (rewriteAnnotation env path data class cc img s) as [[] s' | e s'];
        cbn [state_of]; unfold I in *.
      * destruct H as (_ & _ & _ & b & [[Hf Hc] | [c [Hf Hc]]]);
          rewrite Hf, Hc, srcs_of_app, Hs; cbn; now rewrite ?app_nil_r.
      * destruct H as (Hf & Hc & _). now rewrite Hf, Hc.
  - intros _. apply keeps_sweep. intros path d s Hs. unfold I in *.
    destruct (scanImages_fn_cases env path d s)
      as [s' (E & _ & [[_ ->] | (_ & _ & _ & [[Hf Hc] | [c [Hf Hc]]])])];
      rewrite E; cbn [state_of]; try assumption.
    + now rewrite Hf, Hc.
    + rewrite Hf, Hc, srcs_of_app, Hs. reflexivity.
Qed.

Lemma wrap_small : forall z, - 2 ^ 63 <= z < 2 ^ 63 -> wrap z = z.
Proof. intros z H. unfold wrap. rewrite Z.mod_small; lia. Qed.

Lemma wrap_wrap_add : forall a b, wrap (wrap a + b) = wrap (a + b).
Proof.
  intros a b. unfold wrap. f_equal.
  replace ((a + 2 ^ 63) mod 2 ^ 64 - 2 ^ 63 + b + 2 ^ 63)
    with ((a + 2 ^ 63) mod 2 ^ 64 + b) by ring.
  rewrite Zplus_mod_idemp_l. f_equal. ring.
Qed.

Lemma labels_of_app : forall a b, labels_of (a ++ b) = (labels_of a ++ labels_of b)%list.
Proof. intros a b. unfold labels_of. apply flat_map_app. Qed.

(** X19.  The label files of a yolo pass are [output/yolo/0.txt],
    [output/yolo/1.txt], ... in the order they are written (the numbers
    wrapping as an [int] does), [TotalCount] is their number, and every image
    copy is [output/yolo/<k>.jpg] for the number [k] of one of the labels. *)
Theorem yolo_labels_numbered :
  forall env : Env,
    let st := state_of (scanAllLabelled env true initial) in
    exists N : nat,
      TotalCount st = wrap (Z.of_nat N)
      /\ labels_of (files st)
         = map (fun k => yolo_name (wrap (Z.of_nat k)) ".txt") (seq 0 N)
      /\ forall src dst complete,
           In (Copied src dst complete) (files st) ->
           exists k, (k < N)%nat /\ dst = yolo_name (wrap (Z.of_nat k)) ".jpg".
Proof.
  intros env st. subst st.
  set (I := fun s : State =>
    exists N : nat,
      TotalCount s = wrap (Z.of_nat N)
      /\ labels_of (files s)
         = map (fun k => yolo_name (wrap (Z.of_nat k)) ".txt") (seq 0 N)
      /\ forall src dst complete,
           In (Copied src dst complete) (files s) ->
           exists k, (k < N)%nat /\ dst = yolo_name (wrap (Z.of_nat k)) ".jpg").
  change (I (state_of (scanAllLabelled env true initial))).
  apply keeps_annotation_pass.
  - intros _ data idx img s [N (Ht & Hl & Hc)].
    pose proof (writeYolo_cases env data idx img s) as H.
    destruct (writeYolo env data idx img s) as [[] s' | e s']; cbn [state_of].
    + destruct H as (Ht' & _ & line & Hfiles).
      exists (S N). split; [ | split ].
      * rewrite Ht', Ht. unfold int_add. rewrite wrap_wrap_add. f_equal. lia.
      * rewrite seq_S, map_app. cbn [map Nat.add].
        destruct Hfiles as [[Hf _] | [c [Hf _]]]; rewrite Hf, labels_of_app, Hl, Ht;
          reflexivity.
      * intros src dst complete Hin.
        assert (Hold : In (Copied src dst complete) (files s)
                       \/ dst = yolo_name (TotalCount s) ".jpg").
        { destruct Hfiles as [[Hf _] | [c [Hf _]]]; rewrite Hf in Hin;
            apply in_app_or in Hin; destruct Hin as [Hin | Hin]; auto.
          - destruct Hin as [Hin | []]. discriminate.
          - destruct Hin as [Hin | [Hin | []]]; [ discriminate | ].
            injection Hin as _ <- _. now right. }
        destruct Hold as [Hold | ->].
        -- destruct (Hc _ _ _ Hold) as [k [Hk ->]]. exists k. split; [ lia | reflexivity ].
        -- exists N. split; [ lia | now rewrite Ht ].
    + destruct H as (Hf & _ & Ht' & _). exists N. rewrite Hf, Ht'. auto.
  - discriminate.
  - exists O. repeat split. intros src dst complete [].
Qed.

Lemma prefix_app : forall k b, String.prefix k (k ++ b) = true.
Proof.
  induction k as [|c k IH]; intro b; simpl.
  - now destruct b.
  - destruct (ascii_dec c c) as [_ | Hne]; [ apply IH | now elim Hne ].
Qed.

Lemma prefix_output : forall x, String.prefix "output/" ("output/" ++ x) = true.
Proof. intro x. exact (prefix_app "output/" x). Qed.

(** X20.  Every file a run writes, in either mode, has a name that starts
    with [output/]: the program writes nothing into the dataset it reads. *)
Theorem outputs_under_output :
  forall (env : Env) (yolo : bool),
    Forall (fun o => String.prefix "output/" (dest o) = true)
      (files (state_of ((scanAllLabelled env yolo ;;; scanImages env) initial))).
Proof.
  intros env yolo. apply Forall_forall.
  set (I := fun s : State =>
    forall o, In o (files s) -> String.prefix "output/" (dest o) = true).
  change (I (state_of ((scanAllLabelled env yolo ;;; scanImages env) initial))).
  assert (Hadd : forall (s s' : State) new,
            I s -> files s' = (files s ++ new)%list ->
            (forall o, In o new -> String.prefix "output/" (dest o) = true) -> I s').
  { intros s s' new Hs Hf Hnew o Hin. rewrite Hf in Hin.
    apply in_app_or in Hin. destruct Hin; auto. }
  apply (keeps_bind I); [ | | intros o [] ].
  - apply keeps_annotation_pass.
    + intros _ data idx img s Hs.
      pose proof (writeYolo_cases env data idx img s) as H.
      destruct (writeYolo env data idx img s) as [[] s' | e s']; cbn [state_of].
      * destruct H as (_ & _ & line & [[Hf _] | [c [Hf _]]]);
          apply (Hadd s s' _ Hs Hf); intros o Ho; simpl in Ho;
          repeat (destruct Ho as [<- | Ho]; [ apply prefix_output | ]); contradiction.
      * destruct H as (Hf & _). intros o Ho. rewrite Hf in Ho. now apply Hs.
    + intros _ path data class cc img Hplain s Hs.
      pose proof (rewriteAnnotation_cases env path data class cc img s Hplain) as H.
      destruct (rewriteAnnotation env path data class cc img s) as [[] s' | e s'];
        cbn [state_of].
      * destruct H as (_ & _ & _ & b & [[Hf _] | [c [Hf _]]]);
          apply (Hadd s s' _ Hs Hf); intros o Ho; simpl in Ho;
          repeat (destruct Ho as [<- | Ho]; [ apply prefix_output | ]); contradiction.
      * destruct H as (Hf & _). intros o Ho. rewrite Hf in Ho. now apply Hs.
  - intros _. apply keeps_sweep. intros path d s Hs.
    destruct (scanImages_fn_cases env path d s)
      as [s' (E & _ & [[_ ->] | (_ & _ & _ & [[Hf _] | [c [Hf _]]])])];
      rewrite E; cbn [state_of]; try assumption.
    + intros o Ho. rewrite Hf in Ho. now apply Hs.
    + apply (Hadd s s' _ Hs Hf). intros o [<- | []]. apply prefix_output.
Qed.

(** X16.  The sweep returns no error, whatever the disk answers: every
    error of [copy] is dropped, so the [log.Fatal] of [scanImages] is never
    reached. *)
Theorem scanImages_never_fails :
  forall (env : Env) (st : State), exists st', scanImages env st = Ok tt st'.
Proof. intros env st. unfold scanImages. apply sweep_completes. Qed.

(** X10.  [getOutputFileName] takes the extension of its third argument
    itself, so passing the extension of a path, as the callers do, gives the
    same result as passing the path. *)
Theorem getOutputFileName_ext_twice :
  forall (class : Class) (n : ClassCount) (path : string) (st : State),
    getOutputFileName class n (filepath.Ext path) st = getOutputFileName class n path st.
Proof.
  intros class n path st. unfold getOutputFileName, bind, createOutputDir, ret.
  now rewrite Ext_idempotent.
Qed.

(** ** Keywords inside longer paths *)

Lemma ToLowerASCII_app :
  forall a b,
    strings.ToLowerASCII (a ++ b) = strings.ToLowerASCII a ++ strings.ToLowerASCII b.
Proof. induction a as [|c a IH]; intro b; simpl; [ reflexivity | now rewrite IH ]. Qed.

Lemma Contains_prefix :
  forall s k, String.prefix k s = true -> strings.Contains s k = true.
Proof. intros [|c s] k H; cbn [strings.Contains]; now rewrite H. Qed.

Lemma Contains_app :
  forall a k b, strings.Contains (a ++ k ++ b) k = true.
Proof.
  induction a as [|c a IH]; intros k b.
  - change ("" ++ k ++ b) with (k ++ b). apply Contains_prefix. exact (prefix_app k b).
  - cbn [String.append strings.Contains]. rewrite IH. apply orb_true_r.
Qed.

(** X3.  On ASCII paths, a path that holds the letters g, u, n in a row, in
    any letter case and anywhere (inside a longer word, in a directory name),
    is of class gun and has index 2, whatever other keywords it holds. *)
Theorem gun_anywhere :
  forall (env : Env) (pre mid post : string),
    (forall s, ToLower env s = strings.ToLowerASCII s) ->
    strings.ToLowerASCII mid = GUN ->
    getClassFromPath env (pre ++ mid ++ post) = (GUN, AddrGunCount)
    /\ getIndexFromPath env (pre ++ mid ++ post) = 2.
Proof.
  intros env pre mid post Hlower Hmid.
  assert (H : has_keyword env (pre ++ mid ++ post) GUN = true).
  { unfold has_keyword. rewrite Hlower, !ToLowerASCII_app, Hmid. apply Contains_app. }
  rewrite getClassFromPath_unfold, getIndexFromPath_unfold, H. now split.
Qed.

Lemma gun_anywhere_witness :
  getClassFromPath knife_env "dataset/knife/GUNther_01.JPG" = (GUN, AddrGunCount)
  /\ getIndexFromPath knife_env "dataset/knife/GUNther_01.JPG" = 2.
Proof.
  apply (gun_anywhere knife_env "dataset/knife/" "GUN" "ther_01.JPG").
  - intro s. reflexivity.
  - reflexivity.
Defined.

Lemma index_of_class :
  forall env path, getIndexFromPath env path = spec_index (fst (getClassFromPath env path)).
Proof.
  intros env path. rewrite getIndexFromPath_unfold, getClassFromPath_unfold.
  keyword_split env path; reflexivity.
Qed.

Lemma class_unknown_iff :
  forall env path,
    String.eqb (fst (getClassFromPath env path)) UNKNOWN
    = (getIndexFromPath env path =? -1).
Proof.
  intros env path. rewrite getIndexFromPath_unfold, getClassFromPath_unfold.
  keyword_split env path; reflexivity.
Qed.

(** X4.  The two fallbacks of the annotation pass agree: the index computed
    from the annotation path, or from the recorded path when that gives -1,
    is the table index of the class computed from the annotation path, or
    from the recorded path when that gives unknown. *)
Theorem fallback_index_agrees :
  forall (env : Env) (path recorded : string),
    let class :=
      if String.eqb (fst (getClassFromPath env path)) UNKNOWN
      then fst (getClassFromPath env recorded)
      else fst (getClassFromPath env path) in
    let classIndex :=
      if getIndexFromPath env path =? -1
      then getIndexFromPath env recorded
      else getIndexFromPath env path in
    classIndex = spec_index class.
Proof.
  intros env path recorded class classIndex. subst class classIndex.
  rewrite class_unknown_iff.
  destruct (getIndexFromPath env path =? -1); apply index_of_class.
Qed.

(** ** No output name is given twice *)

Lemma int_add_small :
  forall n k : Z, 0 <= n -> n + k < 2 ^ 63 -> 1 <= k -> int_add n 1 = n + 1.
Proof. intros n k H0 H1 Hk. unfold int_add. apply wrap_small. lia. Qed.

(** The names the sweep gives out from a state on: they differ from each
    other, and each carries a counter value not below the one the state
    holds. *)
Lemma sweep_names :
  forall (env : Env) (es : list DirEntry) (st : State),
    (forall p, 0 <= load p st) ->
    (forall p, load p st + Z.of_nat (List.length es) < 2 ^ 63) ->
    exists new,
      files (state_of (walk_entries (scanImages_fn env) es st)) = (files st ++ new)%list
      /\ NoDup (map dest new)
      /\ forall o, In o new ->
           exists path n,
             dest o = output_name (fst (getClassFromPath env path)) n (filepath.Ext path)
             /\ load (snd (getClassFromPath env path)) st <= n.
Proof.
  intros env es. induction es as [|d es IH]; intros st Hpos Hbound.
  - exists []. cbn. rewrite app_nil_r. repeat split; [ constructor | intros o [] ].
  - cbn [walk_entries].
    destruct (scanImages_fn_cases env (d_path d) d st) as [st1 (E & _ & Hcases)].
    rewrite E.
    assert (Hlen : Z.of_nat (List.length (d :: es)) = Z.of_nat (List.length es) + 1)
      by (cbn [List.length]; lia).
    destruct Hcases as [[_ ->] | (_ & Hinc & Hothers & Hfiles)].
    + apply IH; [ exact Hpos | ]. intro p. specialize (Hbound p). lia.
    + set (cc0 := snd (getClassFromPath env (d_path d))) in *.
      set (c0 := fst (getClassFromPath env (d_path d))) in *.
      assert (Hn1 : load cc0 st1 = load cc0 st + 1).
      { rewrite Hinc. apply (int_add_small _ (Z.of_nat (List.length (d :: es))));
          [ apply Hpos | apply Hbound | lia ]. }
      assert (Hmono : forall p, load p st <= load p st1 <= load p st + 1).
      { intro p. destruct (CounterRef_eq_dec p cc0) as [-> | Hne].
        - lia.
        - rewrite (Hothers p Hne). lia. }
      destruct (IH st1) as [new' (Hf' & Hnd & Hnames)].
      { intro p. specialize (Hpos p). specialize (Hmono p). lia. }
      { intro p. specialize (Hbound p). specialize (Hmono p). lia. }
      destruct Hfiles as [[Hf _] | [complete [Hf _]]].
      * exists new'. rewrite Hf', Hf. repeat split; [ exact Hnd | ].
        intros o Ho. destruct (Hnames o Ho) as [path [n [Hd Hn]]].
        exists path, n. split; [ exact Hd | ].
        specialize (Hmono (snd (getClassFromPath env path))). lia.
      * exists (Copied (d_path d) (output_name c0 (load cc0 st) (filepath.Ext (d_path d)))
                  complete :: new').
        rewrite Hf', Hf, <- app_assoc. repeat split.
        -- cbn [map dest]. constructor; [ | exact Hnd ].
           intro Hin. apply in_map_iff in Hin. destruct Hin as [o [Hdo Ho]].
           destruct (Hnames o Ho) as [path [n [Hd Hn]]].
           rewrite Hd in Hdo.
           destruct (getClassFromPath_class env path) as (Hcc & _ & Hplain).
           destruct (getClassFromPath_class env (d_path d)) as (Hcc0 & _ & Hplain0).
           cbn zeta in Hcc, Hcc0, Hplain, Hplain0. fold c0 in Hcc0, Hplain0. fold cc0 in Hcc0.
           destruct (output_name_eq_inv _ _ _ _ _ _ Hplain Hplain0
                       (Ext_is_ext path) (Ext_is_ext (d_path d)) Hdo) as (Hc & Hnn & _).
           rewrite Hcc, Hc, <- Hcc0 in Hn. lia.
        -- intros o [<- | Ho].
           ++ exists (d_path d), (load cc0 st). split; [ reflexivity | ]. subst cc0. lia.
           ++ destruct (Hnames o Ho) as [path [n [Hd Hn]]].
              exists path, n. split; [ exact Hd | ].
              specialize (Hmono (snd (getClassFromPath env path))). lia.
Qed.

(** X21.  From a state with counters that are not negative and leave room
    for the entries of the walk below 2^63, the sweep gives no two of the
    images it copies the same output name. *)
Theorem sweep_outputs_distinct :
  forall (env : Env) (st : State),
    (forall p, 0 <= load p st) ->
    (forall p, load p st + Z.of_nat (List.length (walk env "dataset/images")) < 2 ^ 63) ->
    exists new,
      files (state_of (scanImages env st)) = (files st ++ new)%list
      /\ NoDup (map dest new).
Proof.
  intros env st Hpos Hbound.
  destruct (sweep_names env (walk env "dataset/images") st Hpos Hbound)
    as [new (Hf & Hnd & _)].
  exists new. now split.
Qed.

Lemma sweep_outputs_distinct_witness :
  exists new,
    files (state_of (scanImages spare_env initial)) = (files initial ++ new)%list
    /\ NoDup (map dest new).
Proof.
  apply (sweep_outputs_distinct spare_env initial).
  - intros []; cbn; lia.
  - intros []; cbn; lia.
Defined.

Lemma yolo_name_inj :
  forall n1 n2 s1 s2,
    is_ext s1 = true -> is_ext s2 = true ->
    yolo_name n1 s1 = yolo_name n2 s2 -> n1 = n2 /\ s1 = s2.
Proof.
  intros n1 n2 s1 s2 H1 H2 H. unfold yolo_name in H.
  apply (append_cancel_l "output/yolo/") in H.
  destruct (ext_split _ _ _ _ (Itoa_no_dot n1) (Itoa_no_dot n2) H1 H2 H) as [Hn Hs].
  split; [ now apply Itoa_inj | exact Hs ].
Qed.

Lemma yolo_name_not_class :
  forall n s c n' e,
    In c [GUN; KNIFE; WRENCH; FORK; SCREWDRIVER; UNKNOWN] ->
    yolo_name n s <> output_name c n' e.
Proof.
  intros n s c n' e Hc H. unfold yolo_name, output_name in H.
  apply (append_cancel_l "output/") in H.
  assert (Hsep : all_bytes (fun x => negb (filepath.is_sep x)) c = true).
  { simpl in Hc. 
    destruct Hc as [<- | [<- | [<- | [<- | [<- | [<- | []]]]]]]; reflexivity. }
  change ("yolo" ++ String "/" (strconv.Itoa n ++ s)
          = c ++ "/" ++ c ++ "_" ++ strconv.Itoa n' ++ e) in H.
  destruct (split_at_first filepath.is_sep "yolo" c "/" "/" _ _ eq_refl Hsep
              eq_refl eq_refl H) as [<- _].
  simpl in Hc. destruct Hc as [Hc | [Hc | [Hc | [Hc | [Hc | [Hc | []]]]]]]; discriminate Hc.
Qed.

(** The names the yolo pass gives out from a state on. *)
Lemma yolo_pass_names :
  forall (env : Env) (es : list DirEntry) (st : State),
    0 <= TotalCount st ->
    TotalCount st + Z.of_nat (List.length es) < 2 ^ 63 ->
    exists new,
      files (state_of (walk_entries (scanAllLabelled_fn env true) es st))
      = (files st ++ new)%list
      /\ NoDup (map dest new)
      /\ forall o, In o new ->
           exists n s, dest o = yolo_name n s /\ is_ext s = true /\ TotalCount st <= n.
Proof.
  intros env es. induction es as [|d es IH]; intros st Hpos Hbound.
  - exists []. cbn. rewrite app_nil_r. repeat split; [ constructor | intros o [] ].
  - cbn [walk_entries].
    assert (Hlen : Z.of_nat (List.length (d :: es)) = Z.of_nat (List.length es) + 1)
      by (cbn [List.length]; lia).
    assert (Hstop : forall e s, files s = files st ->
              exists new,
                files (state_of (@Fail unit e s)) = (files st ++ new)%list
                /\ NoDup (map dest new)
                /\ forall o, In o new ->
                     exists n x, dest o = yolo_name n x /\ is_ext x = true /\ TotalCount st <= n).
    { intros e s Hs. exists []. cbn. rewrite app_nil_r.
      repeat split; [ exact Hs | constructor | intros o [] ]. }
    destruct (scanAllLabelled_fn_cases env true (d_path d) d st)
      as [E | [[e E] | [[Hy _] | [_ (data & idx & img & E)]]]]; try discriminate Hy;
      rewrite E.
    + apply IH; [ exact Hpos | lia ].
    + now apply Hstop.
    + pose proof (writeYolo_cases env data idx img st) as H.
      destruct (writeYolo env data idx img st) as [[] st1 | e st1].
      2:{ apply Hstop. now destruct H. }
      destruct H as (Ht & _ & line & Hfiles).
      assert (Ht1 : TotalCount st1 = TotalCount st + 1).
      { rewrite Ht. apply (int_add_small _ (Z.of_nat (List.length (d :: es)))); lia. }
      destruct (IH st1) as [new' (Hf' & Hnd & Hnames)]; [ lia | lia | ].
      assert (Hfresh : forall x, is_ext x = true ->
                ~ In (yolo_name (TotalCount st) x) (map dest new')).
      { intros x Hx Hin. apply in_map_iff in Hin. destruct Hin as [o [Hdo Ho]].
        destruct (Hnames o Ho) as [n [s [Hd [Hs Hn]]]]. rewrite Hd in Hdo.
        destruct (yolo_name_inj _ _ _ _ Hs Hx Hdo) as [Hnn _]. lia. }
      assert (Hold : forall o, In o new' ->
                exists n s, dest o = yolo_name n s /\ is_ext s = true /\ TotalCount st <= n).
      { intros o Ho. destruct (Hnames o Ho) as [n [s [Hd [Hs Hn]]]].
        exists n, s. repeat split; [ exact Hd | exact Hs | lia ]. }
      destruct Hfiles as [[Hf _] | [complete [Hf _]]].
      * exists (Written (yolo_name (TotalCount st) ".txt") line :: new').
        rewrite Hf', Hf, <- app_assoc. repeat split.
        -- cbn [map dest]. constructor; [ now apply Hfresh | exact Hnd ].
        -- intros o [<- | Ho]; [ | now apply Hold ].
           exists (TotalCount st), ".txt". repeat split. lia.
      * exists (Written (yolo_name (TotalCount st) ".txt") line
                :: Copied img (yolo_name (TotalCount st) ".jpg") complete :: new').
        rewrite Hf', Hf, <- app_assoc. repeat split.
        -- cbn [map dest]. constructor.
           ++ intros [Heq | Hin].
              ** apply yolo_name_inj in Heq; [ | reflexivity | reflexivity ].
                 destruct Heq as [_ Heq]. discriminate Heq.
              ** revert Hin. now apply Hfresh.
           ++ constructor; [ now apply Hfresh | exact Hnd ].
        -- intros o [<- | [<- | Ho]]; [ | | now apply Hold ].
           ++ exists (TotalCount st), ".txt". repeat split. lia.
           ++ exists (TotalCount st), ".jpg". repeat split. lia.
Qed.

(** X22.  On a dataset whose two walks have fewer than 2^63 entries each,
    [main] gives no two of the files it writes (labels, image copies of the
    yolo pass, image copies of the sweep) the same name. *)
Theorem main_outputs_distinct :
  forall env : Env,
    Z.of_nat (List.length (walk env "dataset")) < 2 ^ 63 ->
    Z.of_nat (List.length (walk env "dataset/images")) < 2 ^ 63 ->
    NoDup (map dest (files (state_of (main env initial)))).
Proof.
  intros env Hd Hi. unfold main, bind.
  destruct (yolo_pass_names env (walk env "dataset") initial) as [new1 (Hf1 & Hnd1 & Hn1)];
    [ cbn; lia | cbn; lia | ].
  fold (scanAllLabelled env true) in Hf1.
  pose proof (yolo_pass_class_counters env initial) as Hcounters.
  destruct (scanAllLabelled env true initial) as [[] st1 | e st1]; cbn [state_of] in *.
  - destruct (sweep_names env (walk env "dataset/images") st1) as [new2 (Hf2 & Hnd2 & Hn2)].
    + intro p. rewrite Hcounters. destruct p; cbn; lia.
    + intro p. rewrite Hcounters. destruct p; cbn; lia.
    + fold (scanImages env) in Hf2. rewrite Hf2, Hf1. cbn [files initial app].
      rewrite map_app. apply NoDup_app; [ exact Hnd1 | exact Hnd2 | ].
      intros a Ha1 Ha2.
      apply in_map_iff in Ha1. destruct Ha1 as [o1 [<- Ho1]].
      apply in_map_iff in Ha2. destruct Ha2 as [o2 [Heq Ho2]].
      destruct (Hn1 o1 Ho1) as [n [s [Hd1 _]]].
      destruct (Hn2 o2 Ho2) as [path [n' [Hd2 _]]].
      rewrite Hd1, Hd2 in Heq. symmetry in Heq. revert Heq.
      apply yolo_name_not_class.
      now destruct (getClassFromPath_class env path) as (_ & Hin & _).
  - rewrite Hf1. exact Hnd1.
Qed.

Lemma main_outputs_distinct_witness :
  NoDup (map dest (files (state_of (main spare_env initial)))).
Proof.
  apply (main_outputs_distinct spare_env); cbn; lia.
Defined.

(** ** The base name the resolver looks for *)

Lemma list_ascii_of_string_app :
  forall a b,
    list_ascii_of_string (a ++ b) = (list_ascii_of_string a ++ list_ascii_of_string b)%list.
Proof. induction a as [|c a IH]; intro b; simpl; [ reflexivity | now rewrite IH ]. Qed.

Lemma rev_bytes_app :
  forall a b, filepath.rev_bytes (a ++ b) = (filepath.rev_bytes b ++ filepath.rev_bytes a)%list.
Proof. intros a b. unfold filepath.rev_bytes. now rewrite list_ascii_of_string_app, rev_app_distr. Qed.

Lemma last_elem_skip :
  forall l rest acc,
    (forall c, In c l -> not_sep c = true) ->
    filepath.last_elem (l ++ "/"%char :: rest)%list acc = string_of_list_ascii (rev l) ++ acc.
Proof.
  induction l as [|c l IH]; intros rest acc H.
  - reflexivity.
  - cbn [app filepath.last_elem].
    pose proof (H c (or_introl eq_refl)) as Hc. unfold not_sep in Hc.
    apply negb_true_iff in Hc. rewrite Hc.
    rewrite IH by (intros c' Hc'; apply H; now right).
    cbn [rev]. rewrite string_of_list_ascii_app, append_assoc. reflexivity.
Qed.

Lemma last_elem_all :
  forall l acc,
    (forall c, In c l -> not_sep c = true) ->
    filepath.last_elem l acc = string_of_list_ascii (rev l) ++ acc.
Proof.
  induction l as [|c l IH]; intros acc H.
  - reflexivity.
  - cbn [filepath.last_elem].
    pose proof (H c (or_introl eq_refl)) as Hc. unfold not_sep in Hc.
    apply negb_true_iff in Hc. rewrite Hc.
    rewrite IH by (intros c' Hc'; apply H; now right).
    cbn [rev]. rewrite string_of_list_ascii_app, append_assoc. reflexivity.
Qed.

Lemma strip_seps_id :
  forall l, (forall c, In c l -> not_sep c = true) ->
    forall rest, filepath.strip_seps (l ++ rest)%list = (l ++ rest)%list \/ l = [].
Proof.
  intros [|c l] H rest; [ now right | left ].
  cbn [app filepath.strip_seps].
  pose proof (H c (or_introl eq_refl)) as Hc. unfold not_sep in Hc.
  apply negb_true_iff in Hc. now rewrite Hc.
Qed.

Lemma rev_bytes_no_sep :
  forall name, no_sep name = true ->
    forall c, In c (filepath.rev_bytes name) -> not_sep c = true.
Proof.
  intros name H c Hc. unfold filepath.rev_bytes in Hc. apply in_rev in Hc.
  rewrite no_sep_all_bytes in H. exact (all_bytes_In _ _ H c Hc).
Qed.

Lemma rev_bytes_nonempty :
  forall name, String.eqb name "" = false -> filepath.rev_bytes name <> [].
Proof.
  intros [|c s] H; [ discriminate | ].
  unfold filepath.rev_bytes. cbn [list_ascii_of_string rev].
  intro E. apply app_eq_nil in E. destruct E as [_ E]. discriminate.
Qed.

Lemma rev_rev_bytes :
  forall name, string_of_list_ascii (rev (filepath.rev_bytes name)) = name.
Proof.
  intro name. unfold filepath.rev_bytes.
  now rewrite rev_involutive, string_of_list_ascii_of_string.
Qed.

(** [filepath.Base] of a directory, a separator and a name is the name. *)
Lemma Base_last :
  forall dir name,
    String.eqb name "" = false -> no_sep name = true ->
    filepath.Base (dir ++ "/" ++ name) = name.
Proof.
  intros dir name Hne Hsep. unfold filepath.Base.
  assert (Hp : String.eqb (dir ++ "/" ++ name) "" = false).
  { destruct dir; reflexivity. }
  rewrite Hp. rewrite rev_bytes_app. 
  change (filepath.rev_bytes ("/" ++ name)) with (filepath.rev_bytes (String "/" name)).
  replace (filepath.rev_bytes (String "/" name))
    with (filepath.rev_bytes name ++ ["/"%char])%list by reflexivity.
  rewrite <- app_assoc. cbn [app].
  destruct (strip_seps_id (filepath.rev_bytes name) (rev_bytes_no_sep name Hsep)
              ("/"%char :: filepath.rev_bytes dir)) as [-> | E].
  - rewrite last_elem_skip by now apply rev_bytes_no_sep.
    rewrite rev_rev_bytes, append_nil_r, Hne. reflexivity.
  - now elim (rev_bytes_nonempty name Hne).
Qed.

Lemma Base_plain :
  forall name,
    String.eqb name "" = false -> no_sep name = true -> filepath.Base name = name.
Proof.
  intros name Hne Hsep. unfold filepath.Base. rewrite Hne.
  destruct (strip_seps_id (filepath.rev_bytes name) (rev_bytes_no_sep name Hsep) [])
    as [E | E].
  - rewrite app_nil_r in E. rewrite E.
    rewrite last_elem_all by now apply rev_bytes_no_sep.
    rewrite rev_rev_bytes, append_nil_r, Hne. reflexivity.
  - now elim (rev_bytes_nonempty name Hne).
Qed.

Lemma replace_backslash_cons :
  forall c s,
    strings.ReplaceAll (String c s) "\" "/"
    = String (if Ascii.eqb c "\" then "/"%char else c) (strings.ReplaceAll s "\" "/").
Proof.
  intros c s. unfold strings.ReplaceAll. cbn [strings.replace_from].
  destruct (String.prefix "\" (String c s)) eqn:E.
  - apply String.prefix_correct in E. cbn in E. injection E as E. subst c.
    reflexivity.
  - destruct (Ascii.eqb c "\") eqn:Ec; [ | reflexivity ].
    apply Ascii.eqb_eq in Ec. subst c.
    assert (String.prefix "\" (String "\" s) = true) by (exact (prefix_app "\" s)).
    congruence.
Qed.

Lemma replace_backslash_app :
  forall a b,
    strings.ReplaceAll (a ++ b) "\" "/"
    = strings.ReplaceAll a "\" "/" ++ strings.ReplaceAll b "\" "/".
Proof.
  induction a as [|c a IH]; intro b.
  - reflexivity.
  - cbn [String.append]. rewrite !replace_backslash_cons, IH. reflexivity.
Qed.

Lemma replace_backslash_id :
  forall s, all_bytes not_backslash s = true -> strings.ReplaceAll s "\" "/" = s.
Proof.
  induction s as [|c s IH]; intro H.
  - reflexivity.
  - cbn in H. apply andb_prop in H. destruct H as [Hc Hs].
    rewrite replace_backslash_cons, (IH Hs).
    unfold not_backslash in Hc. apply negb_true_iff in Hc. now rewrite Hc.
Qed.

(** X6.  The name the resolver looks for is the last component of the
    recorded path, whether the path was recorded with backslashes, with
    slashes, or is a bare file name. *)
Theorem wanted_last_component :
  forall (dir name : string),
    String.eqb name "" = false ->
    no_sep name = true ->
    all_bytes not_backslash name = true ->
    wanted (dir ++ "\" ++ name) = name
    /\ wanted (dir ++ "/" ++ name) = name
    /\ wanted name = name.
Proof.
  intros dir name Hne Hsep Hback. unfold wanted. repeat split.
  - rewrite !replace_backslash_app, (replace_backslash_id name Hback).
    change (strings.ReplaceAll "\" "\" "/") with "/".
    now apply Base_last.
  - rewrite !replace_backslash_app, (replace_backslash_id name Hback).
    change (strings.ReplaceAll "/" "\" "/") with "/".
    now apply Base_last.
  - rewrite (replace_backslash_id name Hback). now apply Base_plain.
Qed.

Lemma wanted_last_component_witness :
  wanted ("C:\labels\knife" ++ "\" ++ "knife_1.jpg") = "knife_1.jpg"
  /\ wanted ("C:\labels\knife" ++ "/" ++ "knife_1.jpg") = "knife_1.jpg"
  /\ wanted "knife_1.jpg" = "knife_1.jpg".
Proof.
  apply (wanted_last_component "C:\labels\knife" "knife_1.jpg"); reflexivity.
Defined.

(** ** The record the rewrite branch encodes *)

Lemma drop_last_skip :
  forall l rest,
    (forall c, In c l -> not_sep c = true) ->
    filepath.drop_last_elem (l ++ "/"%char :: rest)%list = ("/"%char :: rest)%list.
Proof.
  induction l as [|c l IH]; intros rest H.
  - reflexivity.
  - cbn [app filepath.drop_last_elem].
    pose proof (H c (or_introl eq_refl)) as Hc. unfold not_sep in Hc.
    apply negb_true_iff in Hc. rewrite Hc.
    apply IH. intros c' Hc'. apply H. now right.
Qed.

Lemma Clean_two_slash :
  forall a b, plain a = true -> plain b = true ->
    filepath.Clean (a ++ "/" ++ b ++ "/") = a ++ "/" ++ b.
Proof.
  intros a b Ha Hb. unfold filepath.Clean.
  rewrite app_not_empty by now apply plain_nonempty.
  rewrite plain_not_rooted by exact Ha.
  simpl (String.append "/" _).
  rewrite elements_cons by now apply plain_no_sep.
  change (b ++ "/") with (b ++ String "/" "").
  rewrite elements_cons by now apply plain_no_sep.
  cbn [filepath.elements fold_left].
  rewrite (plain_step false [] a Ha), (plain_step false [a] b Hb).
  change (filepath.clean_step false [b; a] "") with [b; a].
  cbn [rev app String.concat].
  rewrite app_not_empty by now apply plain_nonempty. reflexivity.
Qed.

Lemma base_name_plain :
  forall class n ext, plain class = true -> is_ext ext = true ->
    plain (base_name class n ext) = true.
Proof.
  intros class n ext Hc He. unfold base_name. apply plain_app; [ exact Hc | ].
  cbn [String.append no_sep]. rewrite no_sep_app, Itoa_no_sep.
  cbn. now apply is_ext_no_sep.
Qed.

Lemma output_name_split :
  forall class n ext,
    output_name class n ext = ("output/" ++ class) ++ "/" ++ base_name class n ext.
Proof. intros. unfold output_name, base_name. now rewrite !append_assoc. Qed.

(** The directory and the base name of an output name. *)
Lemma output_name_parts :
  forall class n ext, plain class = true -> is_ext ext = true ->
    filepath.Dir (output_name class n ext) = "output/" ++ class
    /\ filepath.Base (output_name class n ext) = base_name class n ext.
Proof.
  intros class n ext Hc He.
  pose proof (base_name_plain class n ext Hc He) as Hb.
  rewrite output_name_split. split.
  - unfold filepath.Dir. rewrite rev_bytes_app.
    replace (filepath.rev_bytes ("/" ++ base_name class n ext))
      with (filepath.rev_bytes (base_name class n ext) ++ ["/"%char])%list by reflexivity.
    rewrite <- app_assoc. cbn [app].
    rewrite drop_last_skip by (apply rev_bytes_no_sep; now apply plain_no_sep).
    cbn [rev]. rewrite string_of_list_ascii_app, rev_rev_bytes.
    change (string_of_list_ascii ["/"%char]) with "/".
    change (("output/" ++ class) ++ "/") with ("output" ++ "/" ++ class ++ "/").
    now rewrite Clean_two_slash.
  - apply Base_last; [ now apply plain_nonempty | now apply plain_no_sep ].
Qed.

Lemma Join_dot :
  forall e, plain e = true -> filepath.Join ["."; e] = e.
Proof.
  intros e He. cbn [filepath.Join String.eqb Ascii.eqb Bool.eqb].
  change (String.concat "/" ["."; e]) with (String "." (String "/" e)).
  unfold filepath.Clean.
  cbn [String.eqb Ascii.eqb Bool.eqb].
  assert (Hr : String.prefix "/" (String "." (String "/" e)) = false).
  { destruct (String.prefix "/" (String "." (String "/" e))) eqn:E; [ | reflexivity ].
    apply String.prefix_correct in E. discriminate E. }
  rewrite Hr.
  change (String "." (String "/" e)) with ("." ++ String "/" e).
  rewrite elements_cons by reflexivity.
  rewrite elements_no_sep by now apply plain_no_sep.
  cbn [fold_left]. 
  change (filepath.clean_step false [] ".") with (@nil string).
  rewrite plain_step by exact He.
  cbn [rev app String.concat].
  now rewrite (plain_nonempty e He).
Qed.

(** X13.  When [filepath.Rel] answers [.] for a directory relative to
    itself and the rewrite branch returns nil, the annotation it wrote is the
    encoding, with the two character references removed, of the record whose
    path and file name are both [<class>_<n><ext of the image>] and whose
    object name is the class. *)
Theorem rewriteAnnotation_record :
  forall (env : Env) (path : string) (data : labelledXML) (class : Class)
         (classCount : CounterRef) (foundImage : string) (st st' : State),
    plain class = true ->
    Rel env ("output/" ++ class) ("output/" ++ class) = (".", None) ->
    rewriteAnnotation env path data class classCount foundImage st = Ok tt st' ->
    let n := load classCount st in
    let base := base_name class n (filepath.Ext foundImage) in
    In (Written (output_name class n (filepath.Ext path))
          (strip_refs (fst (MarshalIndent env (rewrite_fields data base base class)))))
       (files st').
Proof.
  intros env path data class classCount foundImage st st' Hclass Hrel Hrun n base.
  subst n base.
  unfold rewriteAnnotation, bind, get in Hrun.
  rewrite getOutputFileName_eq in Hrun by exact Hclass.
  rewrite getOutputFileName_eq in Hrun by exact Hclass.
  rewrite !Ext_idempotent in Hrun.
  assert (Hl : load classCount (set_dirs (dirs st ++ [("output/" ++ class)%string])%list st)
               = load classCount st) by (destruct classCount; reflexivity).
  rewrite Hl in Hrun. clear Hl.
  destruct (output_name_parts class (load classCount st) (filepath.Ext path) Hclass
              (Ext_is_ext path)) as [Hdir1 _].
  destruct (output_name_parts class (load classCount st) (filepath.Ext foundImage) Hclass
              (Ext_is_ext foundImage)) as [Hdir2 Hbase].
  rewrite Hdir1, Hdir2, Hbase, Hrel in Hrun.
  unfold checked at 1 in Hrun. cbn [fst snd] in Hrun.
  rewrite Join_dot in Hrun by (apply base_name_plain; [ exact Hclass | apply Ext_is_ext ]).
  destruct (MarshalIndent env _) as [b [e|]] eqn:Hm;
    unfold bind, checked in Hrun; cbn [fst snd] in Hrun; [ discriminate | ].
  unfold WriteFile in Hrun. destruct (WriteFile_ok env _); [ | discriminate ].
  unfold ignore, modify in Hrun.
  match type of Hrun with
  | context [copy env ?a ?b ?s] =>
      pose proof (copy_cases env a b s) as [_ Hcases];
      destruct (copy env a b s) as [[] s1 | e s1]
  end; cbn [state_of] in Hcases; injection Hrun as <-;
    (assert (Hf : files (store classCount (int_add (load classCount s1) 1) s1) = files s1)
       by (destruct classCount; reflexivity));
    rewrite Hf;
    (destruct Hcases as [(_ & -> & _) | [complete (-> & _)]]);
    cbn [files set_files set_dirs]; unfold strip_refs; cbn [fst];
    repeat (apply in_or_app; first [ right; now left | left ]).
Qed.

Lemma rewriteAnnotation_record_witness :
  In (Written (output_name KNIFE 0 (filepath.Ext "dataset/labels/knife_1.xml"))
        (strip_refs
           (fst (MarshalIndent knife_env
                   (rewrite_fields (box_annotation "50")
                      (base_name KNIFE 0 (filepath.Ext "dataset/images/knife_1.jpg"))
                      (base_name KNIFE 0 (filepath.Ext "dataset/images/knife_1.jpg"))
                      KNIFE)))))
     (files (state_of
               (rewriteAnnotation knife_env "dataset/labels/knife_1.xml"
                  (box_annotation "50") KNIFE AddrKnifeCount "dataset/images/knife_1.jpg"
                  initial))).
Proof.
  apply (rewriteAnnotation_record knife_env "dataset/labels/knife_1.xml"
           (box_annotation "50") KNIFE AddrKnifeCount "dataset/images/knife_1.jpg" initial
           (state_of
              (rewriteAnnotation knife_env "dataset/labels/knife_1.xml"
                 (box_annotation "50") KNIFE AddrKnifeCount "dataset/images/knife_1.jpg"
                 initial)));
    vm_compute; reflexivity.
Defined.
